(** * Fog-of-war hex board ([main.py]): the board engine and its properties

    A shallow embedding of the [HexBoard] widget: the approximate hit test
    [point_in_hex], the distance-based [get_neighbors], the touch handler
    [on_touch_down] and the layout pass of [redraw].

    Numbers.  Python floats are IEEE binary64 and so are Rocq's primitive
    floats: [+ - * /], [abs], [math.sqrt] and the comparisons are the same
    correctly rounded operations, so a layout can be evaluated bit for bit.
    [math.hypot] belongs to the C library and is kept as a parameter.
    Python integers are [Z].  Canvas instructions, colours and logo textures
    carry no control flow and are left out; the Kivy widget geometry
    ([x], [y], [width], [height]) is a field of the board, set by the host. *)

From Stdlib Require Import ZArith Lia Floats Sorted.
From stdpp Require Import base gmap sets list.

Open Scope Z_scope.

(** ** Exceptions *)

Inductive exn : Type :=
| IndexError
| OverflowError.

Inductive result (A : Type) : Type :=
| Ok (a : A)
| Raise (e : exn).
Arguments Ok {A} a.
Arguments Raise {A} e.

#[global] Instance result_ret : MRet result := fun _ a => Ok a.
#[global] Instance result_bind : MBind result := fun _ _ f m =>
  match m with
  | Ok a => f a
  | Raise e => Raise e
  end.

(** ** Python built-ins used by the widget *)

(** [sum(l)] on integers. *)
Definition py_sum (l : list Z) : Z := foldl Z.add 0 l.

(** [range(n)]: empty when [n <= 0]. *)
Definition py_range (n : Z) : list Z := Z.of_nat <$> seq 0 (Z.to_nat n).

(** [l[i]]: a negative index counts from the end, anything else out of
    range raises [IndexError]. *)
Definition py_index {A} (l : list A) (i : Z) : result A :=
  let n := Z.of_nat (length l) in
  let j := if i <? 0 then i + n else i in
  if (0 <=? j) && (j <? n)
  then match l !! Z.to_nat j with
       | Some a => Ok a
       | None => Raise IndexError
       end
  else Raise IndexError.

(** An integer operand of a float operation is converted first.  The
    conversion rounds to nearest even and raises [OverflowError] once the
    rounded magnitude would reach [2^1024]. *)
Definition float_int_bound : Z := 2 ^ 1024 - 2 ^ 970.

Definition Z2F (z : Z) : float :=
  SF2Prim (binary_normalize prec emax z 0 false).

Definition int_to_float (z : Z) : result float :=
  if Z.abs z <? float_int_bound then Ok (Z2F z) else Raise OverflowError.

Definition sqrt3 : float := PrimFloat.sqrt 3.

(** ** Geometry *)

Abbreviation point := (float * float)%type.

Definition point_in_hex (px py hx hy size : float) : bool :=
  let dx := PrimFloat.abs (px - hx) in
  let dy := PrimFloat.abs (py - hy) in
  if (size <? dy)%float then false
  else
    let max_dx := (sqrt3 * (size - dy))%float in
    (dx <=? max_dx)%float.

(** ** The board *)

Record HexBoard : Type := mkHexBoard {
  hex_size : float;
  rows_patterns : list Z;
  tile_centers : list point;
  token_tile : option Z;
  revealed : gset Z;
  developer_mode : bool;
  start_visible_tile : Z;
  widget_x : float;
  widget_y : float;
  widget_width : float;
  widget_height : float
}.

Definition set_tile_centers (b : HexBoard) (cs : list point) : HexBoard :=
  mkHexBoard (hex_size b) (rows_patterns b) cs (token_tile b) (revealed b)
    (developer_mode b) (start_visible_tile b)
    (widget_x b) (widget_y b) (widget_width b) (widget_height b).

Definition set_token_tile (b : HexBoard) (t : option Z) : HexBoard :=
  mkHexBoard (hex_size b) (rows_patterns b) (tile_centers b) t (revealed b)
    (developer_mode b) (start_visible_tile b)
    (widget_x b) (widget_y b) (widget_width b) (widget_height b).

Definition set_revealed (b : HexBoard) (r : gset Z) : HexBoard :=
  mkHexBoard (hex_size b) (rows_patterns b) (tile_centers b) (token_tile b) r
    (developer_mode b) (start_visible_tile b)
    (widget_x b) (widget_y b) (widget_width b) (widget_height b).

Definition set_geometry (b : HexBoard) (x y w h : float) : HexBoard :=
  mkHexBoard (hex_size b) (rows_patterns b) (tile_centers b) (token_tile b)
    (revealed b) (developer_mode b) (start_visible_tile b) x y w h.

(** [HexBoard.__init__]: stores its arguments, starts with no tile
    centres and no token, and reveals the start tile.  Nothing is
    validated.  A fresh Kivy widget sits at (0, 0) with size (100, 100). *)
Definition HexBoard_init (hex_size : float) (rows_pattern : list Z)
    (start_visible_tile : Z) (developer : bool) : result HexBoard :=
  Ok (mkHexBoard hex_size rows_pattern [] None ({[start_visible_tile]} ∪ ∅)
        developer start_visible_tile 0 0 100 100).

(** ** Layout: the tile centres computed by [redraw] *)

Definition row_centers (w_spacing h_spacing cx start_y : float)
    (row_idx count : Z) : result (list point) :=
  c1 ← int_to_float (count - 1);
  let row_width := (c1 * w_spacing)%float in
  let row_offset_x := (- row_width / 2)%float in
  r ← int_to_float row_idx;
  let y := (start_y - r * h_spacing)%float in
  mapM (fun col =>
          c ← int_to_float col;
          Ok ((cx + row_offset_x + c * w_spacing)%float, y))
       (py_range count).

Fixpoint layout_rows (w_spacing h_spacing cx start_y : float)
    (row_idx : Z) (rows : list Z) : result (list point) :=
  match rows with
  | [] => Ok []
  | count :: rest =>
      row ← row_centers w_spacing h_spacing cx start_y row_idx count;
      below ← layout_rows w_spacing h_spacing cx start_y (row_idx + 1) rest;
      Ok (row ++ below)
  end.

Definition generate_layout (hex_size : float) (rows : list Z)
    (x y width height : float) : result (list point) :=
  let w_spacing := (hex_size * sqrt3)%float in
  let h_spacing := (hex_size * 1.5)%float in
  let cx := (x + width / 2)%float in
  let cy := (y + height / 2)%float in
  n1 ← int_to_float (Z.of_nat (length rows) - 1);
  let total_height := (n1 * h_spacing)%float in
  let start_y := (cy + total_height / 2)%float in
  layout_rows w_spacing h_spacing cx start_y 0 rows.

(** [draw_player_token]: returns early past the end of the list; any other
    index is looked up, so an index below [-len] raises. *)
Definition draw_player_token (b : HexBoard) (tile_index : Z) : result unit :=
  if Z.of_nat (length (tile_centers b)) <=? tile_index then Ok tt
  else _ ← py_index (tile_centers b) tile_index; Ok tt.

Definition redraw (b : HexBoard) : result HexBoard :=
  cs ← generate_layout (hex_size b) (rows_patterns b)
         (widget_x b) (widget_y b) (widget_width b) (widget_height b);
  let b' := set_tile_centers b cs in
  match token_tile b' with
  | Some t => _ ← draw_player_token b' t; Ok b'
  | None => Ok b'
  end.

(** ** Neighbours and touches *)

Section Board.

(** [math.hypot], supplied by the C library. *)
Variable hypot : float -> float -> float.

(** The distance test of [get_neighbors]: within [tolerance] of the
    horizontal or of the vertical spacing. *)
Definition edge_sharing (hex_size dist : float) : bool :=
  let horiz := (hex_size * sqrt3)%float in
  let vert := (hex_size * 1.5)%float in
  let tolerance := 2%float in
  (PrimFloat.abs (dist - horiz) <? tolerance)%float
  || (PrimFloat.abs (dist - vert) <? tolerance)%float.

(** The loop of [get_neighbors] over [enumerate(self.tile_centers)],
    [idx] being the counter of [enumerate]. *)
Fixpoint neighbors_loop (hex_size x0 y0 : float) (tile_idx idx : Z)
    (tiles : list point) : list Z :=
  match tiles with
  | [] => []
  | (x1, y1) :: rest =>
      let tl := neighbors_loop hex_size x0 y0 tile_idx (idx + 1) rest in
      if idx =? tile_idx then tl
      else
        let dx := (x1 - x0)%float in
        let dy := (y1 - y0)%float in
        let dist := hypot dx dy in
        if edge_sharing hex_size dist then idx :: tl else tl
  end.

Definition get_neighbors (b : HexBoard) (tile_idx : Z) : result (list Z) :=
  c ← py_index (tile_centers b) tile_idx;
  Ok (neighbors_loop (hex_size b) c.1 c.2 tile_idx 0 (tile_centers b)).

(** The body of [on_touch_down] for a tile that contains the touch and
    is revealed: move the token, reveal the neighbours, redraw. *)
Definition select_tile (b : HexBoard) (idx : Z) : result (HexBoard * bool) :=
  let b1 := set_token_tile b (Some idx) in
  ns ← get_neighbors b1 idx;
  let b2 := set_revealed b1 (foldl (fun r n => {[n]} ∪ r) (revealed b1) ns) in
  b3 ← redraw b2;
  Ok (b3, true).

(** The loop of [on_touch_down].  A tile that contains the touch but is
    not revealed does not end the loop.  Falling off the end calls
    [Widget.on_touch_down], which finds no child to handle the touch. *)
Fixpoint touch_loop (b : HexBoard) (tx ty : float) (idx : Z)
    (tiles : list point) : result (HexBoard * bool) :=
  match tiles with
  | [] => Ok (b, false)
  | (hx, hy) :: rest =>
      if point_in_hex tx ty hx hy (hex_size b) then
        if bool_decide (idx ∈ revealed b) then select_tile b idx
        else touch_loop b tx ty (idx + 1) rest
      else touch_loop b tx ty (idx + 1) rest
  end.

Definition on_touch_down (b : HexBoard) (tx ty : float)
    : result (HexBoard * bool) :=
  touch_loop b tx ty 0 (tile_centers b).

(** ** The application *)

(** What [HexApp.build] does with its board: construct it, then put the
    token on the start tile. *)
Definition initialize (hex_size : float) (rows_pattern : list Z)
    (start_tile : Z) (developer : bool) : result HexBoard :=
  board ← HexBoard_init hex_size rows_pattern start_tile developer;
  Ok (set_token_tile board (Some start_tile)).

Definition HexApp_build : result HexBoard :=
  let start_visible_tile := py_sum [3; 4] in
  initialize 45 [3; 4; 5; 4; 3] start_visible_tile true.

(** The host drives the board: a change of [size] or [pos] runs the
    bound [redraw], a pointer event runs [on_touch_down]. *)
Inductive event : Type :=
| Resize (x y w h : float)
| TouchDown (tx ty : float).

Definition step (b : HexBoard) (e : event) : result HexBoard :=
  match e with
  | Resize x y w h => redraw (set_geometry b x y w h)
  | TouchDown tx ty => r ← on_touch_down b tx ty; Ok r.1
  end.

Fixpoint run (b : HexBoard) (es : list event) : result HexBoard :=
  match es with
  | [] => Ok b
  | e :: es' => b' ← step b e; run b' es'
  end.

End Board.

(** A stand-in for [math.hypot] used to evaluate examples; the proofs
    below hold for every [hypot]. *)
Definition hypot_sqrt (a b : float) : float :=
  PrimFloat.sqrt (PrimFloat.abs a * PrimFloat.abs a
                  + PrimFloat.abs b * PrimFloat.abs b)%float.

(** ** Views used to state the properties *)

(** The tile [on_touch_down] acts on: the search of its loop, without the
    effects.  [hit_selects] below ties it to the handler. *)
Fixpoint touched_loop (b : HexBoard) (tx ty : float) (idx : Z)
    (tiles : list point) : option Z :=
  match tiles with
  | [] => None
  | (hx, hy) :: rest =>
      if point_in_hex tx ty hx hy (hex_size b) then
        if bool_decide (idx ∈ revealed b) then Some idx
        else touched_loop b tx ty (idx + 1) rest
      else touched_loop b tx ty (idx + 1) rest
  end.

Definition touched_tile (b : HexBoard) (tx ty : float) : option Z :=
  touched_loop b tx ty 0 (tile_centers b).

(** The hit tester as the specification words it: the first tile, in
    index order, whose containment test holds. *)
Fixpoint locate_loop (tx ty size : float) (idx : Z) (tiles : list point)
    : option Z :=
  match tiles with
  | [] => None
  | (hx, hy) :: rest =>
      if point_in_hex tx ty hx hy size then Some idx
      else locate_loop tx ty size (idx + 1) rest
  end.

Definition spec_locateTile (tx ty : float) (tiles : list point)
    (size : float) : option Z :=
  locate_loop tx ty size 0 tiles.

(** The containment test as the specification words it. *)
Definition spec_pointInHex (px py cx cy size : float) : Prop :=
  let dx := PrimFloat.abs (px - cx) in
  let dy := PrimFloat.abs (py - cy) in
  (size <? dy)%float = false /\ (dx <=? sqrt3 * (size - dy))%float = true.

(** Tile [t] contains the point, by the test of the handler. *)
Definition contains (b : HexBoard) (tx ty : float) (t : Z) : Prop :=
  0 <= t /\
  exists c : point, tile_centers b !! Z.to_nat t = Some c /\
    point_in_hex tx ty c.1 c.2 (hex_size b) = true.

(** Row-major numbering: the index of column [c] of row [r]. *)
Definition tile_index (rows : list Z) (r : nat) (c : Z) : Z :=
  py_sum (take r rows) + c.

(** Where [redraw] puts column [c] of a row of [count] tiles, row [r] of
    [n] rows. *)
Definition center_at (hex_size x y width height : float) (n : nat)
    (r : nat) (count c : Z) : point :=
  let w_spacing := (hex_size * sqrt3)%float in
  let h_spacing := (hex_size * 1.5)%float in
  let cx := (x + width / 2)%float in
  let cy := (y + height / 2)%float in
  let start_y := (cy + Z2F (Z.of_nat n - 1) * h_spacing / 2)%float in
  ((cx + - (Z2F (count - 1) * w_spacing) / 2 + Z2F c * w_spacing)%float,
   (start_y - Z2F (Z.of_nat r) * h_spacing)%float).

(** The malformed construction inputs of the specification. *)
Definition invalid_configuration (hex_size : float) (rows : list Z)
    (start : Z) : Prop :=
  rows = [] \/ Exists (fun c => c <= 0) rows
  \/ (hex_size <=? 0)%float = true
  \/ ~ (0 <= start < py_sum rows).

(** States the host can drive a board into. *)
Inductive reachable (hypot : float -> float -> float) (b0 : HexBoard)
    : HexBoard -> Prop :=
| reach_start : reachable hypot b0 b0
| reach_step b e b' :
    reachable hypot b0 b -> step hypot b e = Ok b' -> reachable hypot b0 b'.

(** [math.hypot] takes the magnitude of each coordinate before anything
    else. *)
Definition hypot_of_magnitudes (hypot : float -> float -> float) : Prop :=
  forall a b, hypot a b = hypot (PrimFloat.abs a) (PrimFloat.abs b).

(** A float that is neither NaN nor infinite. *)
Definition finite (f : float) : Prop := PrimFloat.is_finite f = true.

(** ** The application's board on its 700 x 700 window *)

(** The board of [HexApp.build] with a chosen start tile, once the window
    has laid it out. *)
Definition board_700 (start : Z) : result HexBoard :=
  b ← initialize 45 [3; 4; 5; 4; 3] start true;
  redraw (set_geometry b 0 0 700 700).

Definition centers_700 : list point :=
  Eval vm_compute in
    match generate_layout 45 [3; 4; 5; 4; 3] 0 0 700 700 with
    | Ok cs => cs
    | Raise _ => []
    end.

Definition laid_out_700 (start : Z) : HexBoard :=
  mkHexBoard 45 [3; 4; 5; 4; 3] centers_700 (Some start)
    ({[start]} ∪ ∅) true start 0 0 700 700.

(** ** Invariants of the board state *)

(** The layout belongs to the row pattern and every revealed index is a
    tile index of it. *)
Definition revealed_in_range (rows : list Z) (b : HexBoard) : Prop :=
  rows_patterns b = rows
  /\ Z.of_nat (length (tile_centers b)) <= py_sum rows
  /\ forall t, t ∈ revealed b -> 0 <= t < py_sum rows.

(** A token, when set, sits on a revealed tile. *)
Definition token_on_revealed (b : HexBoard) : Prop :=
  forall t, token_tile b = Some t -> t ∈ revealed b.

(** ** Further views *)

(** The number of tiles a row pattern yields: [range(count)] is empty for
    a count below one. *)
Definition tile_count (rows : list Z) : Z :=
  py_sum ((fun c => Z.max 0 c) <$> rows).

(** [board.developer_mode = d], as a caller may set it. *)
Definition set_developer_mode (b : HexBoard) (d : bool) : HexBoard :=
  mkHexBoard (hex_size b) (rows_patterns b) (tile_centers b) (token_tile b)
    (revealed b) d (start_visible_tile b)
    (widget_x b) (widget_y b) (widget_width b) (widget_height b).

(** The layout of the board is the one its pattern and geometry give. *)
Definition laid_out (b : HexBoard) : Prop :=
  generate_layout (hex_size b) (rows_patterns b) (widget_x b) (widget_y b)
    (widget_width b) (widget_height b) = Ok (tile_centers b).

(** States reached through touches alone, the window keeping its size. *)
Inductive touched_from (hypot : float -> float -> float) (b0 : HexBoard)
    : HexBoard -> Prop :=
| touched_start : touched_from hypot b0 b0
| touched_step b tx ty b' handled :
    touched_from hypot b0 b ->
    on_touch_down hypot b tx ty = Ok (b', handled) ->
    touched_from hypot b0 b'.

(** ** What [redraw] shows of the fog *)

(** The tiles that carry a logo: the keys of [self.logos]. *)
Definition logo_tiles : gset Z := {[0; 10; 8; 13; 14; 9]}.

(** [redraw] paints tile [hex_index] black:
    [not self.developer_mode and hex_index not in self.revealed]. *)
Definition fill_is_black (b : HexBoard) (hex_index : Z) : bool :=
  negb (developer_mode b) && negb (bool_decide (hex_index ∈ revealed b)).

(** [redraw] draws the logo of tile [hex_index]:
    [hex_index in self.logos and
     (hex_index in self.revealed or self.developer_mode)]. *)
Definition logo_is_drawn (logos : gset Z) (b : HexBoard) (hex_index : Z)
    : bool :=
  bool_decide (hex_index ∈ logos)
  && (bool_decide (hex_index ∈ revealed b) || developer_mode b).

(** Every integer the layout pass multiplies by a float converts: each
    [count - 1], and the row indices below the number of rows. *)
Definition layout_convertible (rows : list Z) : Prop :=
  Forall (fun c => Z.abs (c - 1) < float_int_bound) rows
  /\ Z.of_nat (length rows) <= float_int_bound.

(** * Properties *)

(** ** The error monad *)

Lemma bind_Ok {A B} (m : result A) (f : A -> result B) (y : B) :
  m ≫= f = Ok y -> exists a, m = Ok a /\ f a = Ok y.
Proof. destruct m as [a|e]; [eauto | discriminate]. Qed.

Lemma int_to_float_Ok (z : Z) (f : float) :
  int_to_float z = Ok f -> f = Z2F z.
Proof.
  unfold int_to_float. destruct (Z.abs z <? float_int_bound); congruence.
Qed.

Lemma int_to_float_small (z : Z) :
  Z.abs z < float_int_bound -> int_to_float z = Ok (Z2F z).
Proof.
  intros Hz. unfold int_to_float.
  destruct (Z.ltb_spec (Z.abs z) float_int_bound) as [_|Hge]; [done | lia].
Qed.

(** ** Construction *)

(** C1 (as amended).  [HexBoard.__init__] checks none of its arguments:
    whatever the hex size, the row pattern and the start tile are, it
    returns a board that stores them as given, with no tile centres yet,
    no token, and the start tile as the only revealed tile. *)
Theorem HexBoard_init_total (hs : float) (rows : list Z) (start : Z)
    (dev : bool) :
  exists b, HexBoard_init hs rows start dev = Ok b
    /\ hex_size b = hs /\ rows_patterns b = rows
    /\ start_visible_tile b = start /\ tile_centers b = []
    /\ token_tile b = None /\ revealed b = {[start]}.
Proof.
  eexists. split; [reflexivity|]. cbn.
  repeat split. apply (right_id_L ∅ (∪)).
Qed.

(** C1 as stated fails: each kind of malformed input (an empty pattern, an
    entry below one, a hex size of zero, a start tile past the end) is
    accepted and a board comes back. *)
Lemma HexBoard_init_accepts_invalid :
  (invalid_configuration 45 [] 0
   /\ exists b, HexBoard_init 45 [] 0 false = Ok b)
  /\ (invalid_configuration 45 [3; 0; -2] 1
      /\ exists b, HexBoard_init 45 [3; 0; -2] 1 false = Ok b)
  /\ (invalid_configuration 0 [3; 4; 5; 4; 3] 7
      /\ exists b, HexBoard_init 0 [3; 4; 5; 4; 3] 7 false = Ok b)
  /\ (invalid_configuration 45 [3; 4; 5; 4; 3] 1000
      /\ exists b, HexBoard_init 45 [3; 4; 5; 4; 3] 1000 false = Ok b).
Proof.
  repeat split; try (eexists; reflexivity).
  - left. reflexivity.
  - right. left. apply Exists_cons_tl, Exists_cons_hd. lia.
  - right. right. left. reflexivity.
  - right. right. right. unfold py_sum. cbn. lia.
Qed.

(** C2 (as amended).  Building a board and putting the token on the start
    tile, as [HexApp.build] does, succeeds for every start tile, in range
    or not: the revealed set is exactly the start tile and the token sits
    on it. *)
Theorem initialize_total (hs : float) (rows : list Z) (start : Z)
    (dev : bool) :
  exists b, initialize hs rows start dev = Ok b
    /\ revealed b = {[start]} /\ token_tile b = Some start
    /\ tile_centers b = [] /\ rows_patterns b = rows /\ hex_size b = hs.
Proof.
  eexists. split; [reflexivity|]. cbn.
  repeat split. apply (right_id_L ∅ (∪)).
Qed.

(** C2 as stated fails on its error half: start tile 1000 on the 19-tile
    board is accepted. *)
Lemma initialize_accepts_out_of_range :
  py_sum [3; 4; 5; 4; 3] = 19
  /\ exists b, initialize 45 [3; 4; 5; 4; 3] 1000 true = Ok b
       /\ token_tile b = Some 1000 /\ revealed b = {[1000]}.
Proof.
  split; [reflexivity|]. eexists. split; [reflexivity|].
  split; [reflexivity|]. cbn. apply (right_id_L ∅ (∪)).
Qed.

(** ** The containment test *)

(** C8.  [point_in_hex] rejects when the vertical offset [dy] exceeds the
    size, and otherwise accepts exactly when the horizontal offset [dx] is
    at most [sqrt 3 * (size - dy)]; so it accepts exactly the points of
    the specification's test. *)
Theorem point_in_hex_cases (px py cx cy size : float) :
  let dx := PrimFloat.abs (px - cx) in
  let dy := PrimFloat.abs (py - cy) in
  (((size <? dy)%float = true /\ point_in_hex px py cx cy size = false)
   \/ ((size <? dy)%float = false
       /\ (point_in_hex px py cx cy size = true
           <-> (dx <=? sqrt3 * (size - dy))%float = true)))
  /\ (point_in_hex px py cx cy size = true
      <-> spec_pointInHex px py cx cy size).
Proof.
  cbv zeta. unfold point_in_hex, spec_pointInHex.
  destruct (size <? PrimFloat.abs (py - cy))%float.
  - split; [by left|]. split; [discriminate | by intros [? _]].
  - split; [by right|]. split; [done | by intros [_ ?]].
Qed.

(** ** The search of the touch handler *)

Lemma touched_loop_spec (b : HexBoard) (tx ty : float) (tiles : list point) :
  forall idx : Z,
  match touched_loop b tx ty idx tiles with
  | Some t =>
      exists (i : nat) (c : point),
        tiles !! i = Some c /\ t = idx + Z.of_nat i
        /\ point_in_hex tx ty c.1 c.2 (hex_size b) = true
        /\ t ∈ revealed b
        /\ forall (j : nat) (c' : point),
             (j < i)%nat -> tiles !! j = Some c' ->
             point_in_hex tx ty c'.1 c'.2 (hex_size b) = true ->
             idx + Z.of_nat j ∉ revealed b
  | None =>
      forall (j : nat) (c' : point),
        tiles !! j = Some c' ->
        point_in_hex tx ty c'.1 c'.2 (hex_size b) = true ->
        idx + Z.of_nat j ∉ revealed b
  end.
Proof.
  induction tiles as [|[hx hy] rest IH]; intros idx; cbn.
  - intros j c' Hj. rewrite lookup_nil in Hj. discriminate.
  - destruct (point_in_hex tx ty hx hy (hex_size b)) eqn:Hhit.
    + destruct (bool_decide (idx ∈ revealed b)) eqn:Hrev.
      * apply bool_decide_eq_true in Hrev.
        exists 0%nat, (hx, hy). repeat split; try done.
        -- lia.
        -- intros j c' Hj. lia.
      * apply bool_decide_eq_false in Hrev.
        specialize (IH (idx + 1)).
        destruct (touched_loop b tx ty (idx + 1) rest) as [t|].
        -- destruct IH as (i & c & Hi & Ht & Hc & Hr & Hfirst).
           exists (S i), c. repeat split; try done; [lia|].
           intros [|j] c' Hlt Hj Hc'.
           ++ by rewrite Z.add_0_r.
           ++ replace (idx + Z.of_nat (S j)) with (idx + 1 + Z.of_nat j) by lia.
              apply (Hfirst j c'); [lia | done | done].
        -- intros [|j] c' Hj Hc'.
           ++ by rewrite Z.add_0_r.
           ++ replace (idx + Z.of_nat (S j)) with (idx + 1 + Z.of_nat j) by lia.
              by apply (IH j c').
    + specialize (IH (idx + 1)).
      destruct (touched_loop b tx ty (idx + 1) rest) as [t|].
      * destruct IH as (i & c & Hi & Ht & Hc & Hr & Hfirst).
        exists (S i), c. repeat split; try done; [lia|].
        intros [|j] c' Hlt Hj Hc'.
        -- cbn in Hj. injection Hj as <-. cbn in Hc'. congruence.
        -- replace (idx + Z.of_nat (S j)) with (idx + 1 + Z.of_nat j) by lia.
           apply (Hfirst j c'); [lia | done | done].
      * intros [|j] c' Hj Hc'.
        -- cbn in Hj. injection Hj as <-. cbn in Hc'. congruence.
        -- replace (idx + Z.of_nat (S j)) with (idx + 1 + Z.of_nat j) by lia.
           by apply (IH j c').
Qed.

(** [on_touch_down] is its search followed by [select_tile]. *)
Lemma touch_loop_touched (hypot : float -> float -> float) (b : HexBoard)
    (tx ty : float) (tiles : list point) :
  forall idx : Z,
  touch_loop hypot b tx ty idx tiles =
  match touched_loop b tx ty idx tiles with
  | Some t => select_tile hypot b t
  | None => Ok (b, false)
  end.
Proof.
  induction tiles as [|[hx hy] rest IH]; intros idx; cbn; [done|].
  destruct (point_in_hex tx ty hx hy (hex_size b)); [|apply IH].
  destruct (bool_decide (idx ∈ revealed b)); [done | apply IH].
Qed.

Lemma hit_selects (hypot : float -> float -> float) (b : HexBoard)
    (tx ty : float) :
  on_touch_down hypot b tx ty =
  match touched_tile b tx ty with
  | Some t => select_tile hypot b t
  | None => Ok (b, false)
  end.
Proof. apply touch_loop_touched. Qed.

Lemma contains_lookup (b : HexBoard) (tx ty : float) (i : nat) (c : point) :
  tile_centers b !! i = Some c ->
  point_in_hex tx ty c.1 c.2 (hex_size b) = true ->
  contains b tx ty (Z.of_nat i).
Proof.
  intros Hi Hc. split; [lia|]. exists c. by rewrite Nat2Z.id.
Qed.

Lemma touched_tile_Some (b : HexBoard) (tx ty : float) (t : Z) :
  touched_tile b tx ty = Some t ->
  contains b tx ty t /\ t ∈ revealed b
  /\ forall j, 0 <= j < t -> contains b tx ty j -> j ∉ revealed b.
Proof.
  unfold touched_tile. intros Ht.
  pose proof (touched_loop_spec b tx ty (tile_centers b) 0) as H.
  rewrite Ht in H. destruct H as (i & c & Hi & -> & Hc & Hr & Hfirst).
  rewrite Z.add_0_l in *. split; [by eapply contains_lookup|]. split; [done|].
  intros j Hj (_ & c' & Hj' & Hc').
  specialize (Hfirst (Z.to_nat j) c'). rewrite Z2Nat.id in Hfirst by lia.
  apply Hfirst; [lia | done | done].
Qed.

Lemma touched_tile_None (b : HexBoard) (tx ty : float) :
  touched_tile b tx ty = None ->
  forall j, contains b tx ty j -> j ∉ revealed b.
Proof.
  unfold touched_tile. intros Ht j (Hj0 & c' & Hj & Hc').
  pose proof (touched_loop_spec b tx ty (tile_centers b) 0) as H.
  rewrite Ht in H. specialize (H (Z.to_nat j) c' Hj Hc').
  by rewrite Z2Nat.id in H by lia.
Qed.

Lemma contains_in_range (b : HexBoard) (tx ty : float) (t : Z) :
  contains b tx ty t -> 0 <= t < Z.of_nat (length (tile_centers b)).
Proof.
  intros (H0 & c & Hc & _). apply lookup_lt_Some in Hc. lia.
Qed.

Lemma locate_loop_spec (tx ty size : float) (tiles : list point) :
  forall idx : Z,
  match locate_loop tx ty size idx tiles with
  | Some t =>
      exists (i : nat) (c : point),
        tiles !! i = Some c /\ t = idx + Z.of_nat i
        /\ point_in_hex tx ty c.1 c.2 size = true
        /\ forall (j : nat) (c' : point),
             (j < i)%nat -> tiles !! j = Some c' ->
             point_in_hex tx ty c'.1 c'.2 size = false
  | None =>
      forall (j : nat) (c' : point),
        tiles !! j = Some c' -> point_in_hex tx ty c'.1 c'.2 size = false
  end.
Proof.
  induction tiles as [|[hx hy] rest IH]; intros idx; cbn.
  - intros j c' Hj. rewrite lookup_nil in Hj. discriminate.
  - destruct (point_in_hex tx ty hx hy size) eqn:Hhit.
    + exists 0%nat, (hx, hy). repeat split; try done; [lia|].
      intros j c' Hj. lia.
    + specialize (IH (idx + 1)).
      destruct (locate_loop tx ty size (idx + 1) rest) as [t|].
      * destruct IH as (i & c & Hi & Ht & Hc & Hfirst).
        exists (S i), c. repeat split; try done; [lia|].
        intros [|j] c' Hlt Hj.
        -- cbn in Hj. by injection Hj as <-.
        -- apply (Hfirst j c'); [lia | done].
      * intros [|j] c' Hj.
        -- cbn in Hj. by injection Hj as <-.
        -- by apply (IH j c').
Qed.

Lemma touched_of_locate (b : HexBoard) (tx ty : float) (tiles : list point) :
  forall idx : Z,
  match locate_loop tx ty (hex_size b) idx tiles with
  | Some t => t ∈ revealed b -> touched_loop b tx ty idx tiles = Some t
  | None => touched_loop b tx ty idx tiles = None
  end.
Proof.
  induction tiles as [|[hx hy] rest IH]; intros idx; cbn; [done|].
  destruct (point_in_hex tx ty hx hy (hex_size b)); [|apply IH].
  intros Hr. by rewrite bool_decide_eq_true_2.
Qed.

Lemma locate_None_no_tile (b : HexBoard) (tx ty : float) :
  spec_locateTile tx ty (tile_centers b) (hex_size b) = None ->
  forall j, ~ contains b tx ty j.
Proof.
  unfold spec_locateTile. intros Hl j (_ & c & Hj & Hc).
  pose proof (locate_loop_spec tx ty (hex_size b) (tile_centers b) 0) as H.
  rewrite Hl in H. rewrite (H _ _ Hj) in Hc. discriminate.
Qed.

(** C4 (as amended).  The tile a touch acts on is the first tile, in index
    order, whose containment test holds AND which is revealed: a tile that
    contains the touch but is not revealed is passed over and the search
    goes on.  No tile is acted on when no revealed tile contains the
    touch, and among several revealed tiles containing it the earliest
    index wins.  It is the first containing tile of the specification's
    hit tester whenever that tile is revealed. *)
Theorem touch_acts_on_first_revealed_hit (hypot : float -> float -> float)
    (b : HexBoard) (tx ty : float) :
  on_touch_down hypot b tx ty =
    match touched_tile b tx ty with
    | Some t => select_tile hypot b t
    | None => Ok (b, false)
    end
  /\ match touched_tile b tx ty with
     | Some t =>
         contains b tx ty t /\ t ∈ revealed b
         /\ forall j, 0 <= j < t -> contains b tx ty j -> j ∉ revealed b
     | None => forall j, contains b tx ty j -> j ∉ revealed b
     end
  /\ match spec_locateTile tx ty (tile_centers b) (hex_size b) with
     | Some t => t ∈ revealed b -> touched_tile b tx ty = Some t
     | None => touched_tile b tx ty = None
     end.
Proof.
  split; [apply hit_selects|]. split.
  - destruct (touched_tile b tx ty) as [t|] eqn:Ht.
    + by apply touched_tile_Some.
    + by apply touched_tile_None.
  - apply (touched_of_locate b tx ty (tile_centers b) 0).
Qed.

(** C4 as stated fails.  On the application's board with start tile 9, a
    touch 5 units left of tile 9's centre lies in the test region of tile 8
    (not revealed) and of tile 9 (revealed).  The first containing tile is
    8, yet the handler moves on and acts on tile 9: the outcome depends on
    which tiles are revealed. *)
Lemma touch_passes_over_unrevealed_hit :
  board_700 9 = Ok (laid_out_700 9)
  /\ spec_locateTile 345 350 (tile_centers (laid_out_700 9))
       (hex_size (laid_out_700 9)) = Some 8
  /\ bool_decide (8 ∈ revealed (laid_out_700 9)) = false
  /\ touched_tile (laid_out_700 9) 345 350 = Some 9
  /\ (r ← on_touch_down hypot_sqrt (laid_out_700 9) 345 350;
      Ok (token_tile r.1, r.2)) = Ok (Some 9, true).
Proof. vm_compute. repeat split. Qed.

(** ** Fog gating *)

(** C3.  A tile index that is out of range or not revealed is never the
    tile a touch acts on; and a touch under which every tile is that tile
    or an unrevealed one (for an out-of-range index: a touch on no revealed
    tile) leaves the whole board, token and revealed set included,
    unchanged and is reported unhandled. *)
Theorem unrevealed_tile_not_selected (hypot : float -> float -> float)
    (b : HexBoard) (t : Z) :
  t < 0 \/ Z.of_nat (length (tile_centers b)) <= t \/ t ∉ revealed b ->
  forall tx ty : float,
    touched_tile b tx ty <> Some t
    /\ ((forall j, contains b tx ty j -> j = t \/ j ∉ revealed b) ->
        on_touch_down hypot b tx ty = Ok (b, false)).
Proof.
  intros Ht tx ty.
  assert (Hnot : touched_tile b tx ty <> Some t).
  { intros Hsel. apply touched_tile_Some in Hsel as (Hc & Hr & _).
    apply contains_in_range in Hc. destruct Ht as [?|[?|?]]; [lia | lia | done]. }
  split; [done|]. intros Hall. rewrite hit_selects.
  destruct (touched_tile b tx ty) as [j|] eqn:Hj; [|done].
  apply touched_tile_Some in Hj as (Hc & Hr & _).
  destruct (Hall j Hc) as [->|?]; [|done].
  apply contains_in_range in Hc. destruct Ht as [?|[?|?]]; [lia | lia | done].
Qed.

(** The scenario of C3: index 1000 on the 19-tile board, touch at the
    window's corner. *)
Lemma unrevealed_tile_not_selected_witness :
  (1000 < 0 \/ Z.of_nat (length (tile_centers (laid_out_700 7))) <= 1000
   \/ 1000 ∉ revealed (laid_out_700 7))
  /\ touched_tile (laid_out_700 7) 0 0 <> Some 1000
  /\ on_touch_down hypot_sqrt (laid_out_700 7) 0 0 = Ok (laid_out_700 7, false).
Proof.
  assert (H : 1000 < 0 \/ Z.of_nat (length (tile_centers (laid_out_700 7))) <= 1000
              \/ 1000 ∉ revealed (laid_out_700 7)).
  { right. left. cbn. lia. }
  split; [exact H|].
  destruct (unrevealed_tile_not_selected hypot_sqrt (laid_out_700 7) 1000 H 0 0)
    as [Hnot Hnoop].
  split; [exact Hnot|]. apply Hnoop.
  intros j Hj. exfalso. revert Hj. apply locate_None_no_tile.
  vm_compute. reflexivity.
Defined.

(** ** Layout size *)

Lemma py_sum_from (l : list Z) (a : Z) : foldl Z.add a l = a + py_sum l.
Proof.
  unfold py_sum. revert a. induction l as [|c l IH]; intros a; simpl; [lia|].
  rewrite (IH (a + c)), (IH (0 + c)). lia.
Qed.

Lemma py_sum_cons (c : Z) (l : list Z) : py_sum (c :: l) = c + py_sum l.
Proof. unfold py_sum at 1. cbn. apply py_sum_from. Qed.

Lemma py_sum_nonneg (l : list Z) : Forall (fun c => 0 <= c) l -> 0 <= py_sum l.
Proof.
  induction 1 as [|c l Hc _ IH]; [done|]. rewrite py_sum_cons. lia.
Qed.

Lemma mapM_result_lookup {A B} (f : A -> result B) (l : list A) (k : list B) :
  mapM f l = Ok k ->
  length k = length l
  /\ forall (i : nat) (a : A), l !! i = Some a ->
       exists y, f a = Ok y /\ k !! i = Some y.
Proof.
  revert k. induction l as [|a l IH]; intros k; cbn.
  - intros [= <-]. split; [done|]. intros i a' Hi.
    rewrite lookup_nil in Hi. discriminate.
  - intros H. apply bind_Ok in H as (y & Hy & H).
    apply bind_Ok in H as (k' & Hk' & H). injection H as <-.
    destruct (IH k' Hk') as [Hlen Hlook]. split; [cbn; lia|].
    intros [|i] a' Hi; cbn in *.
    + injection Hi as <-. eauto.
    + by apply Hlook.
Qed.

Lemma mapM_result_total {A B} (f : A -> result B) (g : A -> B) (l : list A) :
  (forall a, a ∈ l -> f a = Ok (g a)) -> mapM f l = Ok (g <$> l).
Proof.
  induction l as [|a l IH]; intros Hf; cbn; [done|].
  rewrite (Hf a) by apply list_elem_of_here. cbn.
  rewrite IH; [done|]. intros a' Ha'. apply Hf. by apply list_elem_of_further.
Qed.

Lemma length_py_range (n : Z) : length (py_range n) = Z.to_nat n.
Proof. unfold py_range. by rewrite length_fmap, length_seq. Qed.

Lemma lookup_py_range (n : Z) (i : nat) :
  (i < Z.to_nat n)%nat -> py_range n !! i = Some (Z.of_nat i).
Proof.
  intros Hi. unfold py_range. rewrite list_lookup_fmap, lookup_seq_lt by done.
  done.
Qed.

Lemma row_centers_length (w h cx sy : float) (r count : Z) (row : list point) :
  row_centers w h cx sy r count = Ok row -> length row = Z.to_nat count.
Proof.
  unfold row_centers. intros H.
  apply bind_Ok in H as (c1 & _ & H). apply bind_Ok in H as (fr & _ & H).
  apply mapM_result_lookup in H as [-> _]. apply length_py_range.
Qed.

Lemma layout_rows_length (w h cx sy : float) (rows : list Z) :
  forall (r : Z) (cs : list point),
  layout_rows w h cx sy r rows = Ok cs ->
  Forall (fun c => 0 <= c) rows ->
  Z.of_nat (length cs) = py_sum rows.
Proof.
  induction rows as [|count rest IH]; intros r cs H Hpos; cbn in H.
  - by injection H as <-.
  - apply bind_Ok in H as (row & Hrow & H).
    apply bind_Ok in H as (below & Hbelow & H). injection H as <-.
    apply Forall_cons in Hpos as [Hc Hrest].
    rewrite length_app, py_sum_cons, Nat2Z.inj_add.
    rewrite (IH _ _ Hbelow Hrest), (row_centers_length _ _ _ _ _ _ _ Hrow).
    lia.
Qed.

Lemma generate_layout_length (hs : float) (rows : list Z) (x y w h : float)
    (cs : list point) :
  generate_layout hs rows x y w h = Ok cs ->
  Forall (fun c => 0 <= c) rows ->
  Z.of_nat (length cs) = py_sum rows.
Proof.
  unfold generate_layout. intros H. apply bind_Ok in H as (n1 & _ & H).
  by eapply layout_rows_length.
Qed.

(** ** What the handlers change *)

Lemma redraw_Ok (b b' : HexBoard) :
  redraw b = Ok b' ->
  exists cs,
    generate_layout (hex_size b) (rows_patterns b) (widget_x b) (widget_y b)
      (widget_width b) (widget_height b) = Ok cs
    /\ b' = set_tile_centers b cs.
Proof.
  unfold redraw. intros H. apply bind_Ok in H as (cs & Hcs & H).
  exists cs. split; [done|]. cbn in H.
  destruct (token_tile b) as [t|]; [|congruence].
  apply bind_Ok in H as (u & _ & H). congruence.
Qed.

Lemma reveal_fold (ns : list Z) (r : gset Z) :
  foldl (fun r n => {[n]} ∪ r) r ns = r ∪ list_to_set ns.
Proof.
  revert r. induction ns as [|n ns IH]; intros r; cbn.
  - by rewrite (right_id_L ∅ (∪)).
  - rewrite IH. apply set_eq. intros t.
    rewrite !elem_of_union. tauto.
Qed.

Lemma neighbors_loop_range (hypot : float -> float -> float)
    (hs x0 y0 : float) (tile_idx : Z) (tiles : list point) :
  forall (idx t : Z),
  t ∈ neighbors_loop hypot hs x0 y0 tile_idx idx tiles ->
  idx <= t < idx + Z.of_nat (length tiles).
Proof.
  induction tiles as [|[x1 y1] rest IH]; intros idx t; cbn.
  - intros H. by apply elem_of_nil in H.
  - intros H.
    assert (Htl : t ∈ neighbors_loop hypot hs x0 y0 tile_idx (idx + 1) rest
                  -> idx <= t < idx + Z.pos (Pos.of_succ_nat (length rest))).
    { intros Ht. apply IH in Ht. lia. }
    destruct (idx =? tile_idx); [by apply Htl|].
    destruct (edge_sharing hs _); [|by apply Htl].
    apply elem_of_cons in H as [->|H]; [lia | by apply Htl].
Qed.

Lemma select_tile_Ok (hypot : float -> float -> float) (b b' : HexBoard)
    (idx : Z) (handled : bool) :
  select_tile hypot b idx = Ok (b', handled) ->
  handled = true
  /\ token_tile b' = Some idx
  /\ rows_patterns b' = rows_patterns b
  /\ (exists cs,
        generate_layout (hex_size b) (rows_patterns b) (widget_x b)
          (widget_y b) (widget_width b) (widget_height b) = Ok cs
        /\ tile_centers b' = cs)
  /\ exists ns, revealed b' = revealed b ∪ list_to_set ns
       /\ forall t, t ∈ ns -> 0 <= t < Z.of_nat (length (tile_centers b)).
Proof.
  unfold select_tile. intros H. apply bind_Ok in H as (ns & Hns & H).
  apply bind_Ok in H as (b3 & Hb3 & H). injection H as <- <-.
  apply redraw_Ok in Hb3 as (cs & Hcs & ->). cbn in *.
  repeat split; try done; [by exists cs|].
  exists ns. split; [apply reveal_fold|].
  unfold get_neighbors in Hns. apply bind_Ok in Hns as (c & _ & Hns).
  injection Hns as <-. cbn. intros t Ht.
  apply neighbors_loop_range in Ht. lia.
Qed.

(** ** Reveal and token invariants *)

Lemma on_touch_down_Ok (hypot : float -> float -> float) (b b' : HexBoard)
    (tx ty : float) (handled : bool) :
  on_touch_down hypot b tx ty = Ok (b', handled) ->
  (handled = false /\ b' = b)
  \/ (handled = true
      /\ exists idx, touched_tile b tx ty = Some idx
           /\ select_tile hypot b idx = Ok (b', true)).
Proof.
  rewrite hit_selects. destruct (touched_tile b tx ty) as [idx|].
  - intros H. right. pose proof (select_tile_Ok _ _ _ _ _ H) as [-> _]. eauto.
  - intros [= <- <-]. by left.
Qed.

Lemma step_revealed_in_range (hypot : float -> float -> float)
    (rows : list Z) (b b' : HexBoard) (e : event) :
  Forall (fun c => 0 <= c) rows ->
  revealed_in_range rows b -> step hypot b e = Ok b' ->
  revealed_in_range rows b' /\ revealed b ⊆ revealed b'.
Proof.
  intros Hrows (Hpat & Hlen & Hrev) Hstep. destruct e as [x y w h|tx ty].
  - cbn in Hstep. apply redraw_Ok in Hstep as (cs & Hcs & ->). cbn in *.
    subst rows. split; [|done]. split; [done|]. split; [|done]. cbn.
    by rewrite (generate_layout_length _ _ _ _ _ _ _ Hcs Hrows).
  - cbn in Hstep. apply bind_Ok in Hstep as ([b1 handled] & Htouch & Hb').
    injection Hb' as <-. cbn.
    apply on_touch_down_Ok in Htouch as [[_ ->]|(_ & idx & _ & Hsel)].
    { done. }
    apply select_tile_Ok in Hsel
      as (_ & _ & Hpat' & (cs & Hcs & Hcs') & ns & Hns & Hrange).
    subst rows. split.
    + split; [done|]. split.
      * rewrite Hcs'.
        by rewrite (generate_layout_length _ _ _ _ _ _ _ Hcs Hrows).
      * rewrite Hns. intros t [Ht|Ht]%elem_of_union; [by apply Hrev|].
        apply elem_of_list_to_set, Hrange in Ht. lia.
    + rewrite Hns. apply union_subseteq_l.
Qed.

Lemma step_token_on_revealed (hypot : float -> float -> float)
    (b b' : HexBoard) (e : event) :
  token_on_revealed b -> step hypot b e = Ok b' -> token_on_revealed b'.
Proof.
  intros Htok Hstep. destruct e as [x y w h|tx ty].
  - cbn in Hstep. apply redraw_Ok in Hstep as (cs & _ & ->). exact Htok.
  - cbn in Hstep. apply bind_Ok in Hstep as ([b1 handled] & Htouch & Hb').
    injection Hb' as <-. cbn.
    apply on_touch_down_Ok in Htouch as [[_ ->]|(_ & idx & Hidx & Hsel)];
      [done|].
    apply touched_tile_Some in Hidx as (_ & Hrev & _).
    apply select_tile_Ok in Hsel as (_ & Htok' & _ & _ & ns & Hns & _).
    intros t Ht. rewrite Htok' in Ht. injection Ht as <-.
    rewrite Hns. by apply elem_of_union_l.
Qed.

Lemma reachable_revealed_in_range (hypot : float -> float -> float)
    (rows : list Z) (b0 b : HexBoard) :
  Forall (fun c => 0 <= c) rows ->
  revealed_in_range rows b0 -> reachable hypot b0 b -> revealed_in_range rows b.
Proof.
  intros Hrows H0. induction 1 as [|b e b' _ IH Hstep]; [done|].
  by apply (step_revealed_in_range hypot rows b b' e).
Qed.

Lemma reachable_token_on_revealed (hypot : float -> float -> float)
    (b0 b : HexBoard) :
  token_on_revealed b0 -> reachable hypot b0 b -> token_on_revealed b.
Proof.
  intros H0. induction 1 as [|b e b' _ IH Hstep]; [done|].
  by apply (step_token_on_revealed hypot b b' e).
Qed.

(** C5.  On a board built with a start tile inside [0, totalTiles), every
    host event (a touch, or a resize and its redraw) leaves the revealed
    set a superset of what it was, and the revealed set stays within
    [0, totalTiles) before and after: a revealed tile is never hidden
    again. *)
Theorem revealed_grows_in_range (hypot : float -> float -> float)
    (hs : float) (rows : list Z) (start : Z) (dev : bool)
    (b0 b b' : HexBoard) (e : event) :
  Forall (fun c => 0 <= c) rows ->
  0 <= start < py_sum rows ->
  initialize hs rows start dev = Ok b0 ->
  reachable hypot b0 b ->
  step hypot b e = Ok b' ->
  revealed b ⊆ revealed b'
  /\ (forall t, t ∈ revealed b -> 0 <= t < py_sum rows)
  /\ (forall t, t ∈ revealed b' -> 0 <= t < py_sum rows).
Proof.
  intros Hrows Hstart Hinit Hreach Hstep.
  assert (H0 : revealed_in_range rows b0).
  { injection Hinit as <-. split; [done|]. split; [cbn; lia|]. cbn.
    intros t Ht. rewrite (right_id_L ∅ (∪)) in Ht.
    apply elem_of_singleton in Ht as ->. done. }
  pose proof (reachable_revealed_in_range hypot rows b0 b Hrows H0 Hreach)
    as Hb.
  destruct (step_revealed_in_range hypot rows b b' e Hrows Hb Hstep)
    as [(_ & _ & Hb') Hsub].
  split; [done|]. split; [apply Hb | done].
Qed.

(** The application's board: laid out on the 700 x 700 window, then
    touched inside the start tile 7, which reveals tile 8 among others. *)
Lemma revealed_grows_in_range_witness :
  exists b',
    step hypot_sqrt (laid_out_700 7) (TouchDown 200 350) = Ok b'
    /\ bool_decide (8 ∈ revealed (laid_out_700 7)) = false
    /\ bool_decide (8 ∈ revealed b') = true
    /\ revealed (laid_out_700 7) ⊆ revealed b'
    /\ (forall t, t ∈ revealed (laid_out_700 7) ->
          0 <= t < py_sum [3; 4; 5; 4; 3])
    /\ (forall t, t ∈ revealed b' -> 0 <= t < py_sum [3; 4; 5; 4; 3]).
Proof.
  eexists. split; [vm_compute; reflexivity|].
  split; [vm_compute; reflexivity|]. split; [vm_compute; reflexivity|].
  eapply (revealed_grows_in_range hypot_sqrt 45 [3; 4; 5; 4; 3] 7 true
            _ (laid_out_700 7) _ (TouchDown 200 350)).
  - repeat constructor; lia.
  - unfold py_sum. cbn. lia.
  - reflexivity.
  - eapply (reach_step _ _ _ (Resize 0 0 700 700)); [apply reach_start|].
    vm_compute. reflexivity.
  - vm_compute. reflexivity.
Defined.

(** C6.  On every board the host can reach from a constructed board, with
    or without the initial token of [HexApp.build], a token that is set
    sits on a revealed tile; and right after a handled touch the token is
    set and revealed. *)
Theorem token_stays_on_revealed (hypot : float -> float -> float)
    (hs : float) (rows : list Z) (start : Z) (dev : bool) (b0 b : HexBoard) :
  initialize hs rows start dev = Ok b0
  \/ HexBoard_init hs rows start dev = Ok b0 ->
  reachable hypot b0 b ->
  (forall t, token_tile b = Some t -> t ∈ revealed b)
  /\ forall (tx ty : float) (b' : HexBoard),
       on_touch_down hypot b tx ty = Ok (b', true) ->
       exists t, token_tile b' = Some t /\ t ∈ revealed b'.
Proof.
  intros Hinit Hreach.
  assert (H0 : token_on_revealed b0).
  { destruct Hinit as [Hinit|Hinit]; injection Hinit as <-; intros t; cbn.
    - intros [= <-]. apply elem_of_union_l. by apply elem_of_singleton.
    - discriminate. }
  split; [by apply (reachable_token_on_revealed hypot b0 b)|].
  intros tx ty b' Htouch.
  apply on_touch_down_Ok in Htouch as [[? _]|(_ & idx & Hidx & Hsel)];
    [discriminate|].
  apply touched_tile_Some in Hidx as (_ & Hrev & _).
  apply select_tile_Ok in Hsel as (_ & Htok' & _ & _ & ns & Hns & _).
  exists idx. split; [done|]. rewrite Hns. by apply elem_of_union_l.
Qed.

Lemma token_stays_on_revealed_witness :
  (forall t, token_tile (laid_out_700 7) = Some t ->
     t ∈ revealed (laid_out_700 7))
  /\ exists b',
       on_touch_down hypot_sqrt (laid_out_700 7) 200 350 = Ok (b', true)
       /\ exists t, token_tile b' = Some t /\ t ∈ revealed b'.
Proof.
  pose (b0 := set_token_tile
                (mkHexBoard 45 [3; 4; 5; 4; 3] [] None ({[7]} ∪ ∅)
                   true 7 0 0 100 100) (Some 7)).
  assert (Hinit : initialize 45 [3; 4; 5; 4; 3] 7 true = Ok b0)
    by reflexivity.
  assert (Hreach : reachable hypot_sqrt b0 (laid_out_700 7)).
  { apply (reach_step _ _ b0 (Resize 0 0 700 700)); [apply reach_start|].
    vm_compute. reflexivity. }
  destruct (token_stays_on_revealed hypot_sqrt 45 [3; 4; 5; 4; 3] 7 true b0
              (laid_out_700 7) (or_introl Hinit) Hreach) as [Htok Hafter].
  split; [exact Htok|].
  eexists. split; [vm_compute; reflexivity|].
  apply (Hafter 200%float 350%float). vm_compute. reflexivity.
Defined.

(** ** Row-major layout *)

Lemma float_int_bound_big : 1 < float_int_bound.
Proof. vm_compute. reflexivity. Qed.

Lemma row_centers_lookup (w h cx sy : float) (r count : Z) (row : list point)
    (c : Z) :
  row_centers w h cx sy r count = Ok row ->
  0 <= c < count ->
  row !! Z.to_nat c =
    Some ((cx + - (Z2F (count - 1) * w) / 2 + Z2F c * w)%float,
          (sy - Z2F r * h)%float).
Proof.
  unfold row_centers. intros H Hc.
  apply bind_Ok in H as (c1 & Hc1 & H). apply bind_Ok in H as (fr & Hfr & H).
  apply int_to_float_Ok in Hc1 as ->. apply int_to_float_Ok in Hfr as ->.
  apply mapM_result_lookup in H as [_ Hlook].
  assert (Hcol : py_range count !! Z.to_nat c = Some c).
  { rewrite lookup_py_range by lia. f_equal. lia. }
  destruct (Hlook (Z.to_nat c) c Hcol) as (p & Hp & Hrow).
  apply bind_Ok in Hp as (fc & Hfc & Hp).
  apply int_to_float_Ok in Hfc as ->. injection Hp as <-. exact Hrow.
Qed.

Lemma row_centers_total (w h cx sy : float) (r count : Z) :
  0 <= r < float_int_bound -> 0 <= count < float_int_bound ->
  exists row, row_centers w h cx sy r count = Ok row.
Proof.
  intros Hr Hcount. pose proof float_int_bound_big as Hbig.
  unfold row_centers.
  rewrite (int_to_float_small (count - 1)) by lia. cbn.
  rewrite (int_to_float_small r) by lia. cbn.
  eexists. apply mapM_result_total with
    (g := fun col => ((cx + - (Z2F (count - 1) * w) / 2 + Z2F col * w)%float,
                      (sy - Z2F r * h)%float)).
  intros col Hcol. unfold py_range in Hcol.
  apply list_elem_of_fmap in Hcol as (i & -> & Hi).
  apply elem_of_seq in Hi.
  rewrite int_to_float_small by lia. done.
Qed.

Lemma layout_rows_lookup (w h cx sy : float) (rows : list Z) :
  forall (r0 : Z) (cs : list point),
  layout_rows w h cx sy r0 rows = Ok cs ->
  Forall (fun c => 0 <= c) rows ->
  forall (r : nat) (count c : Z),
    rows !! r = Some count -> 0 <= c < count ->
    cs !! Z.to_nat (tile_index rows r c) =
      Some ((cx + - (Z2F (count - 1) * w) / 2 + Z2F c * w)%float,
            (sy - Z2F (r0 + Z.of_nat r) * h)%float).
Proof.
  induction rows as [|count0 rest IH]; intros r0 cs H Hpos r count c Hr Hc.
  { rewrite lookup_nil in Hr. discriminate. }
  cbn in H. apply bind_Ok in H as (row & Hrow & H).
  apply bind_Ok in H as (below & Hbelow & H). injection H as <-.
  apply Forall_cons in Hpos as [Hc0 Hrest].
  pose proof (row_centers_length _ _ _ _ _ _ _ Hrow) as Hlen.
  unfold tile_index. destruct r as [|r]; cbn in Hr.
  - injection Hr as ->. rewrite take_0. unfold py_sum at 1. cbn [foldl].
    change (Z.of_nat 0) with 0. rewrite Z.add_0_l, Z.add_0_r.
    rewrite lookup_app_l by lia.
    by apply (row_centers_lookup w h cx sy r0 count row c).
  - rewrite firstn_cons, py_sum_cons.
    assert (0 <= py_sum (take r rest)).
    { apply py_sum_nonneg. eapply Forall_take, Hrest. }
    replace (Z.to_nat (count0 + py_sum (take r rest) + c))
      with (length row + Z.to_nat (tile_index rest r c))%nat
      by (unfold tile_index; lia).
    rewrite lookup_app_r by lia.
    replace (length row + Z.to_nat (tile_index rest r c) - length row)%nat
      with (Z.to_nat (tile_index rest r c)) by lia.
    rewrite (IH (r0 + 1) below Hbelow Hrest r count c Hr Hc).
    do 4 f_equal. f_equal. lia.
Qed.

Lemma layout_rows_total (w h cx sy : float) (rows : list Z) :
  forall r0 : Z,
  0 <= r0 -> r0 + Z.of_nat (length rows) <= float_int_bound ->
  Forall (fun c => 0 <= c < float_int_bound) rows ->
  exists cs, layout_rows w h cx sy r0 rows = Ok cs.
Proof.
  induction rows as [|count0 rest IH]; intros r0 Hr0 Hlen Hrows; cbn.
  { by eexists. }
  apply Forall_cons in Hrows as [Hc0 Hrest]. cbn in Hlen.
  destruct (row_centers_total w h cx sy r0 count0) as [row ->]; [lia|done|].
  destruct (IH (r0 + 1)) as [below ->]; [lia|lia|done|]. cbn. by eexists.
Qed.

(** C9.  For a row pattern of counts that are not negative (positive ones
    in particular) and fit a float, [redraw]'s layout pass
    yields exactly [sum(rowPattern)] centres in row-major order: column [c]
    of row [r] has index [sum of the earlier rows + c] and sits at
    [cx - (count - 1) * horizontalSpacing / 2 + c * horizontalSpacing],
    [start_y - r * verticalSpacing].  For [3,4,5,4,3] that makes 19 tiles,
    index 0 the first and index 2 the last column of row 0, index 3 the
    first column of row 1. *)
Theorem generate_layout_row_major (hs : float) (rows : list Z)
    (x y w h : float) :
  Forall (fun c => 0 <= c < float_int_bound) rows ->
  Z.of_nat (length rows) < float_int_bound ->
  (exists cs,
     generate_layout hs rows x y w h = Ok cs
     /\ Z.of_nat (length cs) = py_sum rows
     /\ forall (r : nat) (count c : Z),
          rows !! r = Some count -> 0 <= c < count ->
          cs !! Z.to_nat (tile_index rows r c) =
            Some (center_at hs x y w h (length rows) r count c))
  /\ py_sum [3; 4; 5; 4; 3] = 19
  /\ tile_index [3; 4; 5; 4; 3] 0 0 = 0
  /\ tile_index [3; 4; 5; 4; 3] 0 (3 - 1) = 2
  /\ tile_index [3; 4; 5; 4; 3] 1 0 = 3.
Proof.
  intros Hrows Hlen. split; [|by vm_compute].
  pose proof float_int_bound_big as Hbig.
  assert (Hnonneg : Forall (fun c => 0 <= c) rows).
  { eapply Forall_impl; [exact Hrows|]. cbn. lia. }
  unfold generate_layout.
  rewrite (int_to_float_small (Z.of_nat (length rows) - 1)) by lia. cbn.
  edestruct (layout_rows_total (hs * sqrt3) (hs * 1.5) (x + w / 2)
               (y + h / 2 + Z2F (Z.of_nat (length rows) - 1) * (hs * 1.5) / 2)
               rows 0) as [cs Hcs]; [lia | lia | done |].
  exists cs. split; [done|]. split.
  - by eapply layout_rows_length.
  - intros r count c Hr Hc.
    rewrite (layout_rows_lookup _ _ _ _ rows 0 cs Hcs Hnonneg r count c Hr Hc).
    unfold center_at. by rewrite Z.add_0_l.
Qed.

(** The application's pattern on its 700 x 700 window: 19 centres, rows
    read left to right. *)
Lemma generate_layout_row_major_witness :
  (exists cs,
     generate_layout 45 [3; 4; 5; 4; 3] 0 0 700 700 = Ok cs
     /\ Z.of_nat (length cs) = py_sum [3; 4; 5; 4; 3]
     /\ cs !! Z.to_nat (tile_index [3; 4; 5; 4; 3] 0 0) =
          Some (center_at 45 0 0 700 700 5 0 3 0)
     /\ cs !! Z.to_nat (tile_index [3; 4; 5; 4; 3] 0 2) =
          Some (center_at 45 0 0 700 700 5 0 3 2)
     /\ cs !! Z.to_nat (tile_index [3; 4; 5; 4; 3] 1 0) =
          Some (center_at 45 0 0 700 700 5 1 4 0))
  /\ ((center_at 45 0 0 700 700 5 0 3 0).1
      <? (center_at 45 0 0 700 700 5 0 3 1).1)%float = true
  /\ ((center_at 45 0 0 700 700 5 0 3 1).1
      <? (center_at 45 0 0 700 700 5 0 3 2).1)%float = true
  /\ ((center_at 45 0 0 700 700 5 1 4 0).2
      <? (center_at 45 0 0 700 700 5 0 3 0).2)%float = true.
Proof.
  split; [|by vm_compute].
  assert (Hrows : Forall (fun c => 0 <= c < float_int_bound) [3; 4; 5; 4; 3]).
  { repeat constructor; by vm_compute. }
  assert (Hlen : Z.of_nat (length [3; 4; 5; 4; 3]) < float_int_bound).
  { by vm_compute. }
  destruct (generate_layout_row_major 45 [3; 4; 5; 4; 3] 0 0 700 700
              Hrows Hlen) as [(cs & Hcs & Hn & Hlook) _].
  exists cs. split; [done|]. split; [done|].
  split; [|split]; apply Hlook; (reflexivity || lia).
Defined.

(** ** Floats: the magnitude of a difference *)

Lemma SFabs_round_aux_sign (p e : Z) (m ex : Z) (l : location) :
  SFabs (binary_round_aux p e true m ex l)
  = SFabs (binary_round_aux p e false m ex l).
Proof.
  unfold binary_round_aux.
  destruct (shr_fexp p e m ex l) as [mrs' e'].
  destruct (shr_fexp p e _ e' loc_Exact) as [mrs'' e''].
  destruct (shr_m mrs'') as [|q|q]; cbn; [done| |done].
  by destruct (e'' <=? e - p).
Qed.

Lemma SFabs_round_sign (p e : Z) (m : positive) (ex : Z) :
  SFabs (binary_round p e true m ex) = SFabs (binary_round p e false m ex).
Proof.
  unfold binary_round. destruct (shl_align m ex _) as [mz ez].
  apply SFabs_round_aux_sign.
Qed.

Lemma SFabs_normalize_opp (p e : Z) (m ex : Z) :
  SFabs (binary_normalize p e (- m) ex false)
  = SFabs (binary_normalize p e m ex false).
Proof.
  destruct m as [|q|q]; cbn [binary_normalize Z.opp]; [done| |].
  - apply SFabs_round_sign.
  - symmetry. apply SFabs_round_sign.
Qed.

Lemma SFabs_sub_sym (p e : Z) (x y : spec_float) :
  SFabs (SFsub p e x y) = SFabs (SFsub p e y x).
Proof.
  destruct x as [sx|sx| |sx mx ex], y as [sy|sy| |sy my ey];
    try (by cbn); try (by destruct sx, sy).
  cbn [SFsub]. rewrite (Z.min_comm ey ex).
  rewrite <- SFabs_normalize_opp. f_equal. f_equal. lia.
Qed.

Lemma abs_sub_sym (a b : float) :
  PrimFloat.abs (a - b) = PrimFloat.abs (b - a).
Proof.
  apply Prim2SF_inj. rewrite !abs_spec, !sub_spec. apply SFabs_sub_sym.
Qed.

Lemma abs_abs (a : float) : PrimFloat.abs (PrimFloat.abs a) = PrimFloat.abs a.
Proof.
  apply Prim2SF_inj. rewrite !abs_spec. by destruct (Prim2SF a).
Qed.

Lemma hypot_sqrt_of_magnitudes : hypot_of_magnitudes hypot_sqrt.
Proof. intros a b. unfold hypot_sqrt. by rewrite !abs_abs. Qed.

(** ** Neighbours *)

Lemma neighbors_loop_elem (hypot : float -> float -> float)
    (hs x0 y0 : float) (tile_idx : Z) (tiles : list point) :
  forall (idx t : Z),
  t ∈ neighbors_loop hypot hs x0 y0 tile_idx idx tiles
  <-> exists (i : nat) (c : point),
        tiles !! i = Some c /\ t = idx + Z.of_nat i /\ t <> tile_idx
        /\ edge_sharing hs (hypot (c.1 - x0)%float (c.2 - y0)%float) = true.
Proof.
  induction tiles as [|[x1 y1] rest IH]; intros idx t.
  { cbn. split.
    - intros H. by apply elem_of_nil in H.
    - intros (i & c & Hi & _). rewrite lookup_nil in Hi. discriminate. }
  assert (Hshift :
    (exists (i : nat) (c : point),
        ((x1, y1) :: rest) !! i = Some c /\ t = idx + Z.of_nat i
        /\ t <> tile_idx
        /\ edge_sharing hs (hypot (c.1 - x0)%float (c.2 - y0)%float) = true)
    <-> (t = idx /\ t <> tile_idx
         /\ edge_sharing hs (hypot (x1 - x0)%float (y1 - y0)%float) = true)
        \/ t ∈ neighbors_loop hypot hs x0 y0 tile_idx (idx + 1) rest).
  { rewrite IH. split.
    - intros ([|i] & c & Hi & Ht & Hne & He); cbn in Hi.
      + injection Hi as <-. left. repeat split; [lia | done | done].
      + right. exists i, c. repeat split; [done | lia | done | done].
    - intros [(Ht & Hne & He)|(i & c & Hi & Ht & Hne & He)].
      + exists 0%nat, (x1, y1). repeat split; [lia | done | done].
      + exists (S i), c. repeat split; [done | lia | done | done]. }
  rewrite Hshift. cbn [neighbors_loop].
  assert (Hrange := neighbors_loop_range hypot hs x0 y0 tile_idx rest (idx + 1) t).
  destruct (Z.eqb_spec idx tile_idx) as [Heq|Hne].
  - split; [by right|]. intros [(Ht & Hne & _)|H]; [lia | done].
  - destruct (edge_sharing hs (hypot (x1 - x0)%float (y1 - y0)%float)) eqn:He.
    + rewrite elem_of_cons. split.
      * intros [->|H]; [by left | by right].
      * intros [(Ht & _)|H]; [by left | by right].
    + split; [by right|]. intros [(_ & _ & Hf)|H]; [discriminate | done].
Qed.

Lemma py_index_in_range {A} (l : list A) (i : Z) :
  0 <= i < Z.of_nat (length l) ->
  exists a, l !! Z.to_nat i = Some a /\ py_index l i = Ok a.
Proof.
  intros Hi. unfold py_index.
  destruct (Z.ltb_spec i 0) as [?|_]; [lia|].
  destruct (Z.leb_spec 0 i) as [_|?]; [|lia].
  destruct (Z.ltb_spec i (Z.of_nat (length l))) as [_|?]; [|lia]. cbn.
  destruct (l !! Z.to_nat i) as [a|] eqn:Ha; [by exists a|].
  apply lookup_ge_None in Ha. lia.
Qed.

Lemma get_neighbors_elem (hypot : float -> float -> float) (b : HexBoard)
    (a t : Z) (ca ct : point) :
  0 <= a -> tile_centers b !! Z.to_nat a = Some ca ->
  0 <= t -> tile_centers b !! Z.to_nat t = Some ct ->
  exists ns, get_neighbors hypot b a = Ok ns
    /\ (t ∈ ns <-> t <> a
                   /\ edge_sharing (hex_size b)
                        (hypot (ct.1 - ca.1)%float (ct.2 - ca.2)%float) = true).
Proof.
  intros Ha Hca Ht Hct. unfold get_neighbors.
  destruct (py_index_in_range (tile_centers b) a) as (ca' & Hca' & ->).
  { apply lookup_lt_Some in Hca. lia. }
  assert (ca' = ca) as -> by congruence. cbn.
  eexists. split; [done|]. rewrite neighbors_loop_elem. split.
  - intros (i & c & Hi & Hti & Hne & He). split; [done|].
    assert (i = Z.to_nat t) as -> by lia. congruence.
  - intros [Hne He]. exists (Z.to_nat t), ct. repeat split; [done | lia | done | done].
Qed.

(** C10.  On any layout, for tile indices [a] and [b] of it, [b] is among
    [get_neighbors(a)] exactly when [a] is among [get_neighbors(b)],
    [math.hypot] depending only on the magnitudes of its arguments. *)
Theorem neighbors_symmetric (hypot : float -> float -> float)
    (board : HexBoard) (a b : Z) :
  hypot_of_magnitudes hypot ->
  0 <= a < Z.of_nat (length (tile_centers board)) ->
  0 <= b < Z.of_nat (length (tile_centers board)) ->
  exists na nb,
    get_neighbors hypot board a = Ok na
    /\ get_neighbors hypot board b = Ok nb
    /\ (b ∈ na <-> a ∈ nb).
Proof.
  intros Hhyp Ha Hb.
  destruct (py_index_in_range (tile_centers board) a Ha) as (ca & Hca & _).
  destruct (py_index_in_range (tile_centers board) b Hb) as (cb & Hcb & _).
  destruct (get_neighbors_elem hypot board a b ca cb) as (na & Hna & Hab);
    [lia | done | lia | done |].
  destruct (get_neighbors_elem hypot board b a cb ca) as (nb & Hnb & Hba);
    [lia | done | lia | done |].
  exists na, nb. split; [done|]. split; [done|]. rewrite Hab, Hba.
  rewrite (Hhyp (cb.1 - ca.1)%float), (Hhyp (ca.1 - cb.1)%float).
  rewrite (abs_sub_sym cb.1 ca.1), (abs_sub_sym cb.2 ca.2).
  split; intros [Hne He]; (split; [congruence | done]).
Qed.

(** Tiles 7 and 8 of the application's board are neighbours of each
    other. *)
Lemma neighbors_symmetric_witness :
  exists na nb,
    get_neighbors hypot_sqrt (laid_out_700 7) 7 = Ok na
    /\ get_neighbors hypot_sqrt (laid_out_700 7) 8 = Ok nb
    /\ (8 ∈ na <-> 7 ∈ nb).
Proof.
  apply (neighbors_symmetric hypot_sqrt (laid_out_700 7) 7 8).
  - exact hypot_sqrt_of_magnitudes.
  - cbn. lia.
  - cbn. lia.
Defined.

(** ** Floats: a point against its own centre *)

Lemma finite_SF (x : float) :
  finite x ->
  (exists s, Prim2SF x = S754_zero s)
  \/ (exists s m e, Prim2SF x = S754_finite s m e).
Proof.
  unfold finite, is_finite, is_nan, is_infinity.
  rewrite !FloatAxioms.eqb_spec, abs_spec.
  change (Prim2SF infinity) with (S754_infinity false).
  destruct (Prim2SF x) as [s|[]| |s m e]; cbn; try discriminate; eauto.
Qed.

Lemma SFsub_diag (p e : Z) (X : spec_float) :
  (exists s, X = S754_zero s) \/ (exists s m ex, X = S754_finite s m ex) ->
  SFsub p e X X = S754_zero false.
Proof.
  intros [[s ->]|(s & m & ex & ->)]; cbn [SFsub].
  - by destruct s.
  - by rewrite Z.sub_diag.
Qed.

Lemma abs_sub_diag (x : float) : finite x -> PrimFloat.abs (x - x) = 0%float.
Proof.
  intros Hx. apply Prim2SF_inj. rewrite abs_spec, sub_spec.
  unfold SF64sub. rewrite SFsub_diag by by apply finite_SF. reflexivity.
Qed.

(** Rounding a mantissa that is not negative gives no NaN and keeps the
    sign. *)
Lemma shr_1_nonneg (mrs : shr_record) :
  0 <= shr_m mrs -> 0 <= shr_m (shr_1 mrs).
Proof.
  destruct mrs as [m r s]. cbn.
  destruct m as [|[q|q|]|q]; cbn; lia.
Qed.

Lemma iter_pos_shr_1_nonneg (n : positive) :
  forall mrs, 0 <= shr_m mrs -> 0 <= shr_m (SpecFloat.iter_pos shr_1 n mrs).
Proof.
  induction n as [n IH|n IH|]; intros mrs Hm; cbn.
  - by apply IH, IH, shr_1_nonneg.
  - by apply IH, IH.
  - by apply shr_1_nonneg.
Qed.

Lemma shr_fexp_nonneg (p e : Z) (m ex : Z) (l : location) :
  0 <= m -> 0 <= shr_m (shr_fexp p e m ex l).1.
Proof.
  intros Hm. unfold shr_fexp, shr.
  assert (H0 : 0 <= shr_m (shr_record_of_loc m l)).
  { by destruct l as [|[]]. }
  destruct (fexp p e (Zdigits2 m + ex) - ex) as [|n|n]; cbn; try done.
  by apply iter_pos_shr_1_nonneg.
Qed.

Lemma round_nearest_even_nonneg (m : Z) (l : location) :
  0 <= m -> 0 <= round_nearest_even m l.
Proof.
  intros Hm. destruct l as [|[]]; cbn; try done; [|lia].
  destruct (Z.even m); lia.
Qed.

Lemma binary_round_aux_positive (p e : Z) (m ex : Z) (l : location) :
  0 <= m ->
  SFleb (S754_zero false) (binary_round_aux p e false m ex l) = true.
Proof.
  intros Hm. unfold binary_round_aux.
  pose proof (shr_fexp_nonneg p e m ex l Hm) as H1.
  destruct (shr_fexp p e m ex l) as [mrs' e']. cbn in H1.
  pose proof (shr_fexp_nonneg p e
                (round_nearest_even (shr_m mrs') (loc_of_shr_record mrs'))
                e' loc_Exact (round_nearest_even_nonneg _ _ H1)) as H2.
  destruct (shr_fexp p e _ e' loc_Exact) as [mrs'' e'']. cbn in H2.
  destruct (shr_m mrs'') as [|q|q]; [done| |lia].
  by destruct (e'' <=? e - p).
Qed.

Lemma leb_zero_SF (s : float) :
  (0 <=? s)%float = true ->
  (exists sg, Prim2SF s = S754_zero sg)
  \/ Prim2SF s = S754_infinity false
  \/ (exists m e, Prim2SF s = S754_finite false m e).
Proof.
  rewrite FloatAxioms.leb_spec. change (Prim2SF 0) with (S754_zero false).
  destruct (Prim2SF s) as [sg|[]| |[] m e]; cbn; try discriminate; eauto.
Qed.

Lemma ltb_zero_false (s : float) :
  (0 <=? s)%float = true -> (s <? 0)%float = false.
Proof.
  intros Hs. rewrite FloatAxioms.ltb_spec. change (Prim2SF 0) with (S754_zero false).
  destruct (leb_zero_SF s Hs) as [[sg ->]|[->|(m & e & ->)]]; done.
Qed.

Lemma sub_zero (s : float) : (0 <=? s)%float = true -> (s - 0)%float = s.
Proof.
  intros Hs. apply Prim2SF_inj. rewrite sub_spec.
  change (Prim2SF 0) with (S754_zero false).
  destruct (leb_zero_SF s Hs) as [[sg ->]|[->|(m & e & ->)]]; try done.
  by destruct sg.
Qed.

Lemma sqrt3_mul_nonneg (s : float) :
  (0 <=? s)%float = true -> (0 <=? sqrt3 * s)%float = true.
Proof.
  intros Hs. rewrite FloatAxioms.leb_spec, mul_spec.
  change (Prim2SF 0) with (S754_zero false).
  change (Prim2SF sqrt3) with (S754_finite false 7800463371553962 (-52)).
  destruct (leb_zero_SF s Hs) as [[sg ->]|[->|(m & e & ->)]]; try done.
  unfold SF64mul. cbn [SFmul xorb]. by apply binary_round_aux_positive.
Qed.

Lemma point_in_hex_center (cx cy size : float) :
  finite cx -> finite cy -> (0 <=? size)%float = true ->
  point_in_hex cx cy cx cy size = true.
Proof.
  intros Hx Hy Hs. unfold point_in_hex.
  rewrite (abs_sub_diag cx Hx), (abs_sub_diag cy Hy).
  rewrite (ltb_zero_false size Hs), (sub_zero size Hs).
  by apply sqrt3_mul_nonneg.
Qed.

(** ** The hit test at a tile centre and far from the board *)

Lemma locate_loop_none (tx ty size : float) (tiles : list point) :
  (forall c : point, c ∈ tiles -> point_in_hex tx ty c.1 c.2 size = false) ->
  forall idx, locate_loop tx ty size idx tiles = None.
Proof.
  induction tiles as [|[hx hy] rest IH]; intros H idx; cbn; [done|].
  pose proof (H (hx, hy) (list_elem_of_here _ _)) as Hh. cbn in Hh.
  rewrite Hh. apply IH. intros c Hc. by apply H, list_elem_of_further.
Qed.

Lemma touched_loop_none (b : HexBoard) (tx ty : float) (tiles : list point) :
  (forall c : point, c ∈ tiles ->
     point_in_hex tx ty c.1 c.2 (hex_size b) = false) ->
  forall idx, touched_loop b tx ty idx tiles = None.
Proof.
  induction tiles as [|[hx hy] rest IH]; intros H idx; cbn; [done|].
  pose proof (H (hx, hy) (list_elem_of_here _ _)) as Hh. cbn in Hh.
  rewrite Hh. apply IH. intros c Hc. by apply H, list_elem_of_further.
Qed.

Lemma point_in_hex_above (tx ty hx hy size : float) :
  (size <? PrimFloat.abs (ty - hy))%float = true ->
  point_in_hex tx ty hx hy size = false.
Proof. intros H. unfold point_in_hex. by rewrite H. Qed.

(** X19.  What does hold of the hit test at a centre.  At the centre of
    tile [t]
    (finite coordinates, hex size not negative) tile [t]'s own test holds,
    so the hit tester finds a tile there, of index at most [t]: [t] itself
    unless an earlier tile's test region also covers that centre.  At a
    point whose vertical offset from every tile centre exceeds the hex size
    no tile is found. *)
Theorem hit_at_tile_center (b : HexBoard) (t : Z) (c : point) :
  0 <= t -> tile_centers b !! Z.to_nat t = Some c ->
  finite c.1 -> finite c.2 -> (0 <=? hex_size b)%float = true ->
  contains b c.1 c.2 t
  /\ (exists t',
        spec_locateTile c.1 c.2 (tile_centers b) (hex_size b) = Some t'
        /\ 0 <= t' <= t)
  /\ (t ∈ revealed b ->
      exists t', touched_tile b c.1 c.2 = Some t' /\ 0 <= t' <= t)
  /\ forall tx ty : float,
       Forall (fun c' : point =>
                 (hex_size b <? PrimFloat.abs (ty - c'.2))%float = true)
              (tile_centers b) ->
       spec_locateTile tx ty (tile_centers b) (hex_size b) = None
       /\ touched_tile b tx ty = None.
Proof.
  intros Ht Hc Hx Hy Hs.
  pose proof (point_in_hex_center c.1 c.2 (hex_size b) Hx Hy Hs) as Hcenter.
  split; [split; [done|]; by exists c|]. split; [|split].
  - unfold spec_locateTile.
    pose proof (locate_loop_spec c.1 c.2 (hex_size b) (tile_centers b) 0) as H.
    destruct (locate_loop c.1 c.2 (hex_size b) 0 (tile_centers b)) as [t'|].
    + destruct H as (i & c' & Hi & -> & Hc' & Hfirst).
      exists (0 + Z.of_nat i). split; [done|]. split; [lia|].
      destruct (decide (Z.to_nat t < i)%nat) as [Hlt|Hge]; [|lia].
      rewrite (Hfirst (Z.to_nat t) c Hlt Hc) in Hcenter. discriminate.
    + rewrite (H (Z.to_nat t) c Hc) in Hcenter. discriminate.
  - intros Hrev. unfold touched_tile.
    pose proof (touched_loop_spec b c.1 c.2 (tile_centers b) 0) as H.
    assert (Hid : 0 + Z.of_nat (Z.to_nat t) = t) by lia.
    destruct (touched_loop b c.1 c.2 0 (tile_centers b)) as [t'|].
    + destruct H as (i & c' & Hi & -> & Hc' & Hr & Hfirst).
      exists (0 + Z.of_nat i). split; [done|]. split; [lia|].
      destruct (decide (Z.to_nat t < i)%nat) as [Hlt|Hge]; [|lia].
      pose proof (Hfirst (Z.to_nat t) c Hlt Hc Hcenter) as Hn.
      rewrite Hid in Hn. done.
    + pose proof (H (Z.to_nat t) c Hc Hcenter) as Hn. rewrite Hid in Hn. done.
  - intros tx ty Hfar. rewrite Forall_forall in Hfar. split.
    + apply locate_loop_none. intros c' Hc'.
      by apply point_in_hex_above, Hfar.
    + apply touched_loop_none. intros c' Hc'.
      by apply point_in_hex_above, Hfar.
Qed.

(** Tile 1 of the application's board, and a point far above the board. *)
Lemma hit_at_tile_center_witness :
  contains (laid_out_700 7) 350 485 1
  /\ (exists t',
        spec_locateTile 350 485 (tile_centers (laid_out_700 7))
          (hex_size (laid_out_700 7)) = Some t'
        /\ 0 <= t' <= 1)
  /\ spec_locateTile 350 10000 (tile_centers (laid_out_700 7))
       (hex_size (laid_out_700 7)) = None
  /\ touched_tile (laid_out_700 7) 350 10000 = None.
Proof.
  assert (H0 : 0 <= 1) by lia.
  assert (Hc : tile_centers (laid_out_700 7) !! Z.to_nat 1
               = Some (350%float, 485%float)) by reflexivity.
  assert (Hx : finite 350) by reflexivity.
  assert (Hy : finite 485) by reflexivity.
  assert (Hs : (0 <=? hex_size (laid_out_700 7))%float = true) by reflexivity.
  destruct (hit_at_tile_center (laid_out_700 7) 1 (350%float, 485%float)
              H0 Hc Hx Hy Hs) as (Hin & Hloc & _ & Hfar).
  split; [exact Hin|]. split; [exact Hloc|].
  apply (Hfar 350%float 10000%float).
  change (tile_centers (laid_out_700 7)) with centers_700. unfold centers_700.
  repeat (apply List.Forall_cons; [vm_compute; reflexivity|]).
  apply List.Forall_nil.
Defined.

(** C7 at its failing input.  On the application's board tile 1 has its
    centre at (350, 485), further from the centre of tile 0 than the hex
    size, which is the circumradius of the hexagon: the point is outside
    hexagon 0.  Yet tile 0's test accepts it, so the first containing tile
    there is 0; and once tile 0 was touched, so that tiles 0 and 1 are both
    revealed, a touch exactly at the centre of tile 1 is handled by tile 0:
    the token stays on 0. *)
Lemma center_claimed_by_left_neighbor :
  board_700 0 = Ok (laid_out_700 0)
  /\ (exists x0 : float,
        tile_centers (laid_out_700 0) !! 0%nat = Some (x0, 485%float)
        /\ (hex_size (laid_out_700 0) <? PrimFloat.abs (350 - x0))%float = true
        /\ point_in_hex 350 485 x0 485 (hex_size (laid_out_700 0)) = true)
  /\ tile_centers (laid_out_700 0) !! 1%nat = Some (350%float, 485%float)
  /\ spec_locateTile 350 485 (tile_centers (laid_out_700 0))
       (hex_size (laid_out_700 0)) = Some 0
  /\ exists b,
       run hypot_sqrt (laid_out_700 0) [TouchDown 272 485] = Ok b
       /\ tile_centers b !! 1%nat = Some (350%float, 485%float)
       /\ bool_decide (1 ∈ revealed b) = true
       /\ touched_tile b 350 485 = Some 0
       /\ (r ← on_touch_down hypot_sqrt b 350 485;
           Ok (token_tile r.1, r.2)) = Ok (Some 0, true).
Proof.
  split; [vm_compute; reflexivity|].
  split; [eexists; split; [reflexivity|]; split; vm_compute; reflexivity|].
  split; [reflexivity|]. split; [vm_compute; reflexivity|].
  eexists. split; [vm_compute; reflexivity|].
  repeat split; vm_compute; reflexivity.
Qed.

(** The board [HexApp.build] returns, laid out on its window, is
    [laid_out_700 7]. *)
Lemma HexApp_build_laid_out :
  HexApp_build ≫= (fun b => redraw (set_geometry b 0 0 700 700))
  = Ok (laid_out_700 7).
Proof. vm_compute. reflexivity. Qed.

(** ** Scenarios on the application's board *)

(** A start tile below [-19] is accepted by the constructor and by
    [HexApp.build]; it is the first [redraw] that fails, with the
    [IndexError] of [draw_player_token]. *)
Lemma bad_start_tile_fails_in_redraw :
  board_700 (-1000) = Raise IndexError
  /\ (exists b, board_700 1000 = Ok b)
  /\ exists b, board_700 (-1) = Ok b.
Proof.
  split; [vm_compute; reflexivity|].
  split; eexists; vm_compute; reflexivity.
Qed.

(** Touching the start tile 7 keeps the token on 7 and reveals its
    neighbours 3, 8 and 12. *)
Lemma touch_start_tile_reveals_neighbors :
  get_neighbors hypot_sqrt (laid_out_700 7) 7 = Ok [3; 8; 12]
  /\ (r ← on_touch_down hypot_sqrt (laid_out_700 7) 200 350;
      Ok (token_tile r.1, bool_decide (revealed r.1 = {[3; 7; 8; 12]}), r.2))
     = Ok (Some 7, true, true).
Proof. split; vm_compute; reflexivity. Qed.

(** * Further properties of the code *)

(** ** [get_neighbors] *)

Lemma neighbors_loop_sorted (hypot : float -> float -> float)
    (hs x0 y0 : float) (tile_idx : Z) (tiles : list point) :
  forall idx : Z,
  StronglySorted Z.lt (neighbors_loop hypot hs x0 y0 tile_idx idx tiles).
Proof.
  induction tiles as [|[x1 y1] rest IH]; intros idx; cbn; [constructor|].
  destruct (idx =? tile_idx); [apply IH|].
  destruct (edge_sharing hs _); [|apply IH].
  constructor; [apply IH|]. apply Forall_forall. intros t Ht.
  apply neighbors_loop_range in Ht. lia.
Qed.

(** X1.  For a tile index of the layout, [get_neighbors] returns a list of
    tile indices of the layout, without the tile itself, in strictly
    increasing order (so without repetition). *)
Theorem get_neighbors_sound (hypot : float -> float -> float)
    (b : HexBoard) (a : Z) :
  0 <= a < Z.of_nat (length (tile_centers b)) ->
  exists ns,
    get_neighbors hypot b a = Ok ns
    /\ Forall (fun t => 0 <= t < Z.of_nat (length (tile_centers b)) /\ t <> a)
         ns
    /\ StronglySorted Z.lt ns.
Proof.
  intros Ha. unfold get_neighbors.
  destruct (py_index_in_range (tile_centers b) a Ha) as (c & _ & ->). cbn.
  eexists. split; [done|]. split; [|apply neighbors_loop_sorted].
  apply Forall_forall. intros t Ht. split.
  - apply neighbors_loop_range in Ht. lia.
  - apply neighbors_loop_elem in Ht as (_ & _ & _ & _ & Hne & _). done.
Qed.

Lemma get_neighbors_sound_witness :
  exists ns,
    get_neighbors hypot_sqrt (laid_out_700 7) 9 = Ok ns
    /\ Forall (fun t => 0 <= t < Z.of_nat (length (tile_centers (laid_out_700 7)))
                        /\ t <> 9) ns
    /\ StronglySorted Z.lt ns.
Proof.
  apply (get_neighbors_sound hypot_sqrt (laid_out_700 7) 9). cbn. lia.
Defined.

(** X2.  Past either end of the layout ([len <= i] or [i < -len])
    [get_neighbors] raises [IndexError]. *)
Theorem get_neighbors_out_of_range (hypot : float -> float -> float)
    (b : HexBoard) (i : Z) :
  Z.of_nat (length (tile_centers b)) <= i
  \/ i < - Z.of_nat (length (tile_centers b)) ->
  get_neighbors hypot b i = Raise IndexError.
Proof.
  intros Hi. unfold get_neighbors, py_index.
  destruct (Z.ltb_spec i 0) as [Hneg|Hpos].
  - destruct (Z.leb_spec 0 (i + Z.of_nat (length (tile_centers b))))
      as [?|_]; [lia|]. done.
  - destruct (Z.leb_spec 0 i) as [_|?]; [|lia].
    destruct (Z.ltb_spec i (Z.of_nat (length (tile_centers b))))
      as [?|_]; [lia|]. done.
Qed.

Lemma get_neighbors_out_of_range_witness :
  get_neighbors hypot_sqrt (laid_out_700 7) 19 = Raise IndexError
  /\ get_neighbors hypot_sqrt (laid_out_700 7) (-20) = Raise IndexError.
Proof.
  split.
  - apply (get_neighbors_out_of_range hypot_sqrt (laid_out_700 7) 19).
    left. cbn. lia.
  - apply (get_neighbors_out_of_range hypot_sqrt (laid_out_700 7) (-20)).
    right. cbn. lia.
Defined.

Lemma py_index_negative {A} (l : list A) (i : Z) :
  - Z.of_nat (length l) <= i < 0 ->
  exists a, l !! Z.to_nat (Z.of_nat (length l) + i) = Some a
            /\ py_index l i = Ok a.
Proof.
  intros Hi. unfold py_index.
  destruct (Z.ltb_spec i 0) as [_|?]; [|lia].
  destruct (Z.leb_spec 0 (i + Z.of_nat (length l))) as [_|?]; [|lia].
  destruct (Z.ltb_spec (i + Z.of_nat (length l)) (Z.of_nat (length l)))
    as [_|?]; [|lia]. cbn.
  replace (Z.of_nat (length l) + i) with (i + Z.of_nat (length l)) by lia.
  destruct (l !! Z.to_nat (i + Z.of_nat (length l))) as [a|] eqn:Ha;
    [by exists a|].
  apply lookup_ge_None in Ha. lia.
Qed.

(** X3.  A negative index from [-len] on is read from the end of the list:
    [get_neighbors(i)] measures from tile [len + i], and since no enumerated
    index equals [i], that tile is not skipped: every tile whose distance
    passes the test is returned. *)
Theorem get_neighbors_negative_index (hypot : float -> float -> float)
    (b : HexBoard) (i : Z) :
  - Z.of_nat (length (tile_centers b)) <= i < 0 ->
  exists (c : point) ns,
    tile_centers b !! Z.to_nat (Z.of_nat (length (tile_centers b)) + i)
      = Some c
    /\ get_neighbors hypot b i = Ok ns
    /\ forall t : Z,
         t ∈ ns <->
         0 <= t
         /\ exists ct : point,
              tile_centers b !! Z.to_nat t = Some ct
              /\ edge_sharing (hex_size b)
                   (hypot (ct.1 - c.1)%float (ct.2 - c.2)%float) = true.
Proof.
  intros Hi. unfold get_neighbors.
  destruct (py_index_negative (tile_centers b) i Hi) as (c & Hc & ->). cbn.
  exists c. eexists. split; [done|]. split; [done|]. intros t.
  rewrite neighbors_loop_elem. split.
  - intros (j & ct & Hj & -> & _ & He). split; [lia|]. exists ct.
    rewrite Z.add_0_l, Nat2Z.id. done.
  - intros (Ht & ct & Hct & He). exists (Z.to_nat t), ct.
    repeat split; [done | lia | | done].
    apply lookup_lt_Some in Hct. lia.
Qed.

Lemma get_neighbors_negative_index_witness :
  exists (c : point) ns,
    tile_centers (laid_out_700 7)
      !! Z.to_nat (Z.of_nat (length (tile_centers (laid_out_700 7))) + -1)
      = Some c
    /\ get_neighbors hypot_sqrt (laid_out_700 7) (-1) = Ok ns
    /\ forall t : Z,
         t ∈ ns <->
         0 <= t
         /\ exists ct : point,
              tile_centers (laid_out_700 7) !! Z.to_nat t = Some ct
              /\ edge_sharing (hex_size (laid_out_700 7))
                   (hypot_sqrt (ct.1 - c.1)%float (ct.2 - c.2)%float) = true.
Proof.
  apply (get_neighbors_negative_index hypot_sqrt (laid_out_700 7) (-1)).
  cbn. lia.
Defined.

(** ** [redraw] and [draw_player_token] *)

Lemma draw_player_token_outcome (b : HexBoard) (t : Z) :
  draw_player_token b t =
  if t <? - Z.of_nat (length (tile_centers b)) then Raise IndexError
  else Ok tt.
Proof.
  unfold draw_player_token.
  destruct (Z.leb_spec (Z.of_nat (length (tile_centers b))) t) as [Hge|Hlt].
  { destruct (Z.ltb_spec t (- Z.of_nat (length (tile_centers b))));
      [lia | done]. }
  destruct (Z.ltb_spec t (- Z.of_nat (length (tile_centers b)))) as [Hlow|Hin].
  - unfold py_index.
    destruct (Z.ltb_spec t 0) as [_|?]; [|lia].
    destruct (Z.leb_spec 0 (t + Z.of_nat (length (tile_centers b))))
      as [?|_]; [lia|]. done.
  - destruct (Z.ltb_spec t 0) as [Hneg|Hpos].
    + destruct (py_index_negative (tile_centers b) t) as (c & _ & ->);
        [lia | done].
    + destruct (py_index_in_range (tile_centers b) t) as (c & _ & ->);
        [lia | done].
Qed.

(** X4.  Once the layout of the board's pattern and geometry is computed,
    [redraw] stores it and fails in one case only: a token below [-len],
    for which [draw_player_token] raises [IndexError].  A token at or past
    [len] is skipped, any other is drawn. *)
Theorem redraw_outcome (b : HexBoard) (cs : list point) :
  generate_layout (hex_size b) (rows_patterns b) (widget_x b) (widget_y b)
    (widget_width b) (widget_height b) = Ok cs ->
  redraw b =
  match token_tile b with
  | Some t =>
      if t <? - Z.of_nat (length cs) then Raise IndexError
      else Ok (set_tile_centers b cs)
  | None => Ok (set_tile_centers b cs)
  end.
Proof.
  intros Hcs. unfold redraw. rewrite Hcs. cbn.
  destruct (token_tile b) as [t|]; [|done].
  rewrite draw_player_token_outcome. cbn.
  by destruct (t <? - Z.of_nat (length cs)).
Qed.

Lemma redraw_outcome_witness :
  redraw (set_geometry (laid_out_700 (-1000)) 0 0 700 700) = Raise IndexError
  /\ redraw (set_geometry (laid_out_700 (-19)) 0 0 700 700)
     = Ok (laid_out_700 (-19))
  /\ redraw (set_geometry (laid_out_700 1000) 0 0 700 700)
     = Ok (laid_out_700 1000).
Proof.
  assert (H : forall s,
            generate_layout (hex_size (set_geometry (laid_out_700 s) 0 0 700 700))
              (rows_patterns (set_geometry (laid_out_700 s) 0 0 700 700))
              (widget_x (set_geometry (laid_out_700 s) 0 0 700 700))
              (widget_y (set_geometry (laid_out_700 s) 0 0 700 700))
              (widget_width (set_geometry (laid_out_700 s) 0 0 700 700))
              (widget_height (set_geometry (laid_out_700 s) 0 0 700 700))
            = Ok centers_700).
  { intros s. vm_compute. reflexivity. }
  split; [|split].
  - rewrite (redraw_outcome _ centers_700 (H (-1000))). reflexivity.
  - rewrite (redraw_outcome _ centers_700 (H (-19))). reflexivity.
  - rewrite (redraw_outcome _ centers_700 (H 1000)). reflexivity.
Defined.

(** ** [on_touch_down] *)

Lemma touch_returns (hypot : float -> float -> float)
    (b : HexBoard) (tx ty : float) (cs : list point) :
  generate_layout (hex_size b) (rows_patterns b) (widget_x b) (widget_y b)
    (widget_width b) (widget_height b) = Ok cs ->
  exists b' handled, on_touch_down hypot b tx ty = Ok (b', handled).
Proof.
  intros Hcs. rewrite hit_selects.
  destruct (touched_tile b tx ty) as [idx|] eqn:Hidx; [|by eauto].
  apply touched_tile_Some in Hidx as (Hin & _ & _).
  apply contains_in_range in Hin.
  unfold select_tile, get_neighbors.
  destruct (py_index_in_range (tile_centers b) idx Hin) as (c & _ & Hc).
  cbn [tile_centers set_token_tile]. rewrite Hc. cbn -[redraw].
  unfold redraw. cbn [hex_size rows_patterns widget_x widget_y widget_width
                      widget_height set_revealed set_token_tile].
  rewrite Hcs. cbn -[draw_player_token].
  rewrite draw_player_token_outcome. cbn.
  destruct (Z.ltb_spec idx (- Z.of_nat (length cs))) as [?|_]; [lia|].
  cbn. eauto.
Qed.

(** X5.  A touch cannot fail on a board whose layout can be computed:
    whatever the point, [on_touch_down] returns. *)
Theorem on_touch_down_returns (hypot : float -> float -> float)
    (b : HexBoard) (tx ty : float) (cs : list point) :
  generate_layout (hex_size b) (rows_patterns b) (widget_x b) (widget_y b)
    (widget_width b) (widget_height b) = Ok cs ->
  exists b' handled, on_touch_down hypot b tx ty = Ok (b', handled).
Proof.
  apply touch_returns.
Qed.

Lemma on_touch_down_returns_witness :
  exists b' handled,
    on_touch_down hypot_sqrt (laid_out_700 7) 200 350 = Ok (b', handled).
Proof.
  apply (on_touch_down_returns hypot_sqrt (laid_out_700 7) 200 350 centers_700).
  vm_compute. reflexivity.
Defined.

Lemma get_neighbors_set_token_tile (hypot : float -> float -> float)
    (b : HexBoard) (t : option Z) (i : Z) :
  get_neighbors hypot (set_token_tile b t) i = get_neighbors hypot b i.
Proof. reflexivity. Qed.

(** X6.  What a touch does.  Unhandled, it leaves the board as it was.
    Handled, it has acted on a revealed tile of the layout that contains the
    point: the token is on that tile, the revealed set has gained exactly
    that tile's neighbours, and the centres are the layout of the board's
    pattern and geometry. *)
Theorem on_touch_down_effect (hypot : float -> float -> float)
    (b b' : HexBoard) (tx ty : float) (handled : bool) :
  on_touch_down hypot b tx ty = Ok (b', handled) ->
  if handled then
    exists idx ns,
      contains b tx ty idx /\ idx ∈ revealed b
      /\ get_neighbors hypot b idx = Ok ns
      /\ token_tile b' = Some idx
      /\ revealed b' = revealed b ∪ list_to_set ns
      /\ generate_layout (hex_size b) (rows_patterns b) (widget_x b)
           (widget_y b) (widget_width b) (widget_height b)
         = Ok (tile_centers b')
  else b' = b.
Proof.
  intros H. apply on_touch_down_Ok in H as [[-> ->]|(-> & idx & Hidx & Hsel)];
    [done|].
  apply touched_tile_Some in Hidx as (Hin & Hrev & _).
  unfold select_tile in Hsel. apply bind_Ok in Hsel as (ns & Hns & Hsel).
  apply bind_Ok in Hsel as (b3 & Hb3 & Hsel). injection Hsel as <-.
  apply redraw_Ok in Hb3 as (cs & Hcs & ->). cbn in *.
  exists idx, ns. split; [done|]. split; [done|]. split; [done|].
  split; [done|]. split; [apply reveal_fold | done].
Qed.

Lemma on_touch_down_effect_witness :
  exists b',
    on_touch_down hypot_sqrt (laid_out_700 7) 200 350 = Ok (b', true)
    /\ exists idx ns,
         contains (laid_out_700 7) 200 350 idx
         /\ idx ∈ revealed (laid_out_700 7)
         /\ get_neighbors hypot_sqrt (laid_out_700 7) idx = Ok ns
         /\ token_tile b' = Some idx
         /\ revealed b' = revealed (laid_out_700 7) ∪ list_to_set ns
         /\ generate_layout (hex_size (laid_out_700 7))
              (rows_patterns (laid_out_700 7)) (widget_x (laid_out_700 7))
              (widget_y (laid_out_700 7)) (widget_width (laid_out_700 7))
              (widget_height (laid_out_700 7))
            = Ok (tile_centers b').
Proof.
  eexists. split; [vm_compute; reflexivity|].
  apply (on_touch_down_effect hypot_sqrt (laid_out_700 7) _ 200 350 true).
  vm_compute. reflexivity.
Defined.

(** ** What the events leave alone *)

Lemma step_fields (hypot : float -> float -> float) (b b' : HexBoard)
    (e : event) :
  step hypot b e = Ok b' ->
  hex_size b' = hex_size b
  /\ rows_patterns b' = rows_patterns b
  /\ start_visible_tile b' = start_visible_tile b
  /\ developer_mode b' = developer_mode b
  /\ match e with
     | Resize x y w h =>
         token_tile b' = token_tile b /\ revealed b' = revealed b
         /\ widget_x b' = x /\ widget_y b' = y
         /\ widget_width b' = w /\ widget_height b' = h
     | TouchDown _ _ =>
         widget_x b' = widget_x b /\ widget_y b' = widget_y b
         /\ widget_width b' = widget_width b
         /\ widget_height b' = widget_height b
     end.
Proof.
  intros Hstep. destruct e as [x y w h|tx ty]; cbn in Hstep.
  - apply redraw_Ok in Hstep as (cs & _ & ->). by cbn.
  - apply bind_Ok in Hstep as ([b1 handled] & Htouch & Hb').
    injection Hb' as <-. cbn.
    apply on_touch_down_Ok in Htouch as [[_ ->]|(_ & idx & _ & Hsel)]; [done|].
    unfold select_tile in Hsel. apply bind_Ok in Hsel as (ns & _ & Hsel).
    apply bind_Ok in Hsel as (b3 & Hb3 & Hsel). injection Hsel as <-.
    apply redraw_Ok in Hb3 as (cs & _ & ->). by cbn.
Qed.

(** X7.  Neither a touch nor a resize changes the hex size, the row
    pattern, the start tile or the developer flag.  A resize takes the new
    geometry and leaves token and revealed set alone; a touch leaves the
    geometry alone. *)
Theorem step_frame (hypot : float -> float -> float) (b b' : HexBoard)
    (e : event) :
  step hypot b e = Ok b' ->
  hex_size b' = hex_size b
  /\ rows_patterns b' = rows_patterns b
  /\ start_visible_tile b' = start_visible_tile b
  /\ developer_mode b' = developer_mode b
  /\ match e with
     | Resize x y w h =>
         token_tile b' = token_tile b /\ revealed b' = revealed b
         /\ widget_x b' = x /\ widget_y b' = y
         /\ widget_width b' = w /\ widget_height b' = h
     | TouchDown _ _ =>
         widget_x b' = widget_x b /\ widget_y b' = widget_y b
         /\ widget_width b' = widget_width b
         /\ widget_height b' = widget_height b
     end.
Proof. apply step_fields. Qed.

Lemma step_frame_witness :
  exists b',
    step hypot_sqrt (laid_out_700 7) (TouchDown 200 350) = Ok b'
    /\ hex_size b' = hex_size (laid_out_700 7)
    /\ rows_patterns b' = rows_patterns (laid_out_700 7)
    /\ start_visible_tile b' = start_visible_tile (laid_out_700 7)
    /\ developer_mode b' = developer_mode (laid_out_700 7)
    /\ widget_x b' = widget_x (laid_out_700 7)
    /\ widget_y b' = widget_y (laid_out_700 7)
    /\ widget_width b' = widget_width (laid_out_700 7)
    /\ widget_height b' = widget_height (laid_out_700 7).
Proof.
  eexists. split; [vm_compute; reflexivity|].
  apply (step_frame hypot_sqrt (laid_out_700 7) _ (TouchDown 200 350)).
  vm_compute. reflexivity.
Defined.

(** ** Developer mode *)

Lemma redraw_developer_mode (b : HexBoard) (d : bool) :
  redraw (set_developer_mode b d)
  = redraw b ≫= fun b' => Ok (set_developer_mode b' d).
Proof.
  unfold redraw. cbn.
  destruct (generate_layout _ _ _ _ _ _) as [cs|e]; cbn; [|done].
  destruct (token_tile b) as [t|]; [|done].
  change (draw_player_token (set_tile_centers (set_developer_mode b d) cs) t)
    with (draw_player_token (set_tile_centers b cs) t).
  by destruct (draw_player_token (set_tile_centers b cs) t).
Qed.

Lemma select_tile_developer_mode (hypot : float -> float -> float)
    (b : HexBoard) (d : bool) (idx : Z) :
  select_tile hypot (set_developer_mode b d) idx
  = select_tile hypot b idx ≫= fun r => Ok (set_developer_mode r.1 d, r.2).
Proof.
  unfold select_tile.
  change (get_neighbors hypot (set_token_tile (set_developer_mode b d) (Some idx)) idx)
    with (get_neighbors hypot (set_token_tile b (Some idx)) idx).
  destruct (get_neighbors hypot (set_token_tile b (Some idx)) idx) as [ns|e];
    [|done].
  cbn -[redraw].
  change (set_revealed (set_token_tile (set_developer_mode b d) (Some idx))
            (foldl (fun (r : gset Z) (n : Z) => {[n]} ∪ r) (revealed b) ns))
    with (set_developer_mode
            (set_revealed (set_token_tile b (Some idx))
               (foldl (fun (r : gset Z) (n : Z) => {[n]} ∪ r) (revealed b) ns))
            d).
  rewrite redraw_developer_mode.
  by destruct (redraw _) as [b3|e].
Qed.

Lemma touched_tile_developer_mode (b : HexBoard) (d : bool) (tx ty : float) :
  touched_tile (set_developer_mode b d) tx ty = touched_tile b tx ty.
Proof.
  unfold touched_tile. cbn [tile_centers set_developer_mode].
  generalize 0. induction (tile_centers b) as [|[hx hy] rest IH]; intros idx;
    cbn; [done|].
  by rewrite !IH.
Qed.

Lemma step_developer_mode (hypot : float -> float -> float) (b : HexBoard)
    (d : bool) (e : event) :
  step hypot (set_developer_mode b d) e
  = step hypot b e ≫= fun b' => Ok (set_developer_mode b' d).
Proof.
  destruct e as [x y w h|tx ty]; cbn -[redraw on_touch_down].
  - change (set_geometry (set_developer_mode b d) x y w h)
      with (set_developer_mode (set_geometry b x y w h) d).
    apply redraw_developer_mode.
  - rewrite !hit_selects.
    rewrite touched_tile_developer_mode.
    destruct (touched_tile b tx ty) as [idx|]; [|done].
    rewrite select_tile_developer_mode.
    by destruct (select_tile hypot b idx) as [[b1 handled]|err].
Qed.

(** X8.  The developer flag is read by the drawing only.  Run the same
    events on a board with the flag set the other way and the outcome is the
    same board, flag apart, or the same failure, and a touch is handled on
    the one exactly when it is on the other.  What the flag changes is the
    picture: with it set, no tile is painted black and every logo is
    drawn. *)
Theorem developer_mode_is_display_only (hypot : float -> float -> float)
    (b : HexBoard) (d : bool) (tx ty : float) (es : list event)
    (logos : gset Z) (i : Z) :
  on_touch_down hypot (set_developer_mode b d) tx ty
    = (on_touch_down hypot b tx ty
         ≫= fun r => Ok (set_developer_mode r.1 d, r.2))
  /\ run hypot (set_developer_mode b d) es
     = (run hypot b es ≫= fun b' => Ok (set_developer_mode b' d))
  /\ fill_is_black (set_developer_mode b true) i = false
  /\ logo_is_drawn logos (set_developer_mode b true) i
     = bool_decide (i ∈ logos).
Proof.
  split; [|split; [|split]].
  - rewrite !hit_selects, touched_tile_developer_mode.
    destruct (touched_tile b tx ty) as [idx|]; [|done].
    apply select_tile_developer_mode.
  - revert b. induction es as [|e es IH]; intros b; [done|].
    cbn -[step]. rewrite step_developer_mode.
    destruct (step hypot b e) as [b1|err]; [|done].
    cbn -[step]. apply IH.
  - done.
  - unfold logo_is_drawn. cbn.
    by rewrite orb_true_r, andb_true_r.
Qed.

(** ** Row patterns with entries below one *)

Lemma tile_count_cons (c : Z) (rows : list Z) :
  tile_count (c :: rows) = Z.max 0 c + tile_count rows.
Proof. unfold tile_count. rewrite fmap_cons. apply py_sum_cons. Qed.

Lemma tile_count_nonneg (rows : list Z) : 0 <= tile_count rows.
Proof.
  induction rows as [|c rows IH]; [done|]. rewrite tile_count_cons. lia.
Qed.

Lemma layout_rows_tile_count (w h cx sy : float) (rows : list Z) :
  forall (r : Z) (cs : list point),
  layout_rows w h cx sy r rows = Ok cs ->
  Z.of_nat (length cs) = tile_count rows.
Proof.
  induction rows as [|count rest IH]; intros r cs H; cbn in H.
  - by injection H as <-.
  - apply bind_Ok in H as (row & Hrow & H).
    apply bind_Ok in H as (below & Hbelow & H). injection H as <-.
    rewrite length_app, tile_count_cons, Nat2Z.inj_add.
    rewrite (IH _ _ Hbelow), (row_centers_length _ _ _ _ _ _ _ Hrow). lia.
Qed.

Lemma generate_layout_count (hs : float) (rows : list Z) (x y w h : float)
    (cs : list point) :
  generate_layout hs rows x y w h = Ok cs ->
  Z.of_nat (length cs) = tile_count rows.
Proof.
  unfold generate_layout. intros H. apply bind_Ok in H as (n1 & _ & H).
  by eapply layout_rows_tile_count.
Qed.

(** X9.  Whatever integers the row pattern holds, a computed layout has one
    centre per unit of every positive entry: an entry of zero or below
    yields no tile, and the empty pattern yields the empty layout. *)
Theorem generate_layout_tile_count (hs : float) (rows : list Z)
    (x y w h : float) (cs : list point) :
  generate_layout hs rows x y w h = Ok cs ->
  Z.of_nat (length cs) = tile_count rows
  /\ (Forall (fun c => c <= 0) rows -> cs = []).
Proof.
  intros H. pose proof (generate_layout_count _ _ _ _ _ _ _ H) as Hlen.
  split; [done|]. intros Hrows.
  assert (tile_count rows = 0) as Hz.
  { clear -Hrows. induction Hrows as [|c rows Hc _ IH]; [done|].
    rewrite tile_count_cons. lia. }
  apply nil_length_inv. lia.
Qed.

Lemma generate_layout_tile_count_witness :
  exists cs,
    generate_layout 45 [3; 0; -2; 1] 0 0 700 700 = Ok cs
    /\ Z.of_nat (length cs) = tile_count [3; 0; -2; 1]
    /\ tile_count [3; 0; -2; 1] = 4
    /\ generate_layout 45 [] 0 0 700 700 = Ok []
    /\ generate_layout 45 [0; -5] 0 0 700 700 = Ok [].
Proof.
  eexists. split; [vm_compute; reflexivity|]. split.
  - apply (generate_layout_tile_count 45 [3; 0; -2; 1] 0 0 700 700).
    vm_compute. reflexivity.
  - repeat split; vm_compute; reflexivity.
Defined.

(** ** A start tile outside the layout *)

Lemma step_revealed_mono (hypot : float -> float -> float) (b b' : HexBoard)
    (e : event) :
  step hypot b e = Ok b' -> revealed b ⊆ revealed b'.
Proof.
  intros Hstep. destruct e as [x y w h|tx ty]; cbn in Hstep.
  - by apply redraw_Ok in Hstep as (cs & _ & ->).
  - apply bind_Ok in Hstep as ([b1 handled] & Htouch & Hb').
    injection Hb' as <-. cbn.
    apply on_touch_down_Ok in Htouch as [[_ ->]|(_ & idx & _ & Hsel)]; [done|].
    apply select_tile_Ok in Hsel as (_ & _ & _ & _ & ns & -> & _).
    apply union_subseteq_l.
Qed.

(** X10.  With a start tile outside the layout (negative, or at or past the
    number of tiles) the board is inert: on every state the host can reach,
    the revealed set is still the start tile alone and every touch comes
    back unhandled with the board unchanged. *)
Theorem out_of_range_start_is_inert (hypot : float -> float -> float)
    (hs : float) (rows : list Z) (start : Z) (dev : bool)
    (b0 b : HexBoard) :
  initialize hs rows start dev = Ok b0
  \/ HexBoard_init hs rows start dev = Ok b0 ->
  start < 0 \/ tile_count rows <= start ->
  reachable hypot b0 b ->
  revealed b = {[start]}
  /\ forall tx ty : float, on_touch_down hypot b tx ty = Ok (b, false).
Proof.
  intros Hinit Hstart Hreach.
  assert (Hno : forall b1 : HexBoard,
            Z.of_nat (length (tile_centers b1)) <= tile_count rows ->
            revealed b1 = {[start]} ->
            forall tx ty, on_touch_down hypot b1 tx ty = Ok (b1, false)).
  { intros b1 Hlen Hrev tx ty. rewrite hit_selects.
    destruct (touched_tile b1 tx ty) as [idx|] eqn:Hidx; [|done].
    apply touched_tile_Some in Hidx as (Hin & Hr & _).
    apply contains_in_range in Hin. rewrite Hrev in Hr.
    apply elem_of_singleton in Hr. lia. }
  assert (Hinv : rows_patterns b = rows
                 /\ Z.of_nat (length (tile_centers b)) <= tile_count rows
                 /\ revealed b = {[start]}).
  { induction Hreach as [|b e b' _ IH Hstep].
    - pose proof (tile_count_nonneg rows).
      destruct Hinit as [Hinit|Hinit]; injection Hinit as <-; cbn;
        (split; [done|]; split; [lia|]; apply (right_id_L ∅ (∪))).
    - destruct IH as (Hpat & Hlen & Hrev). destruct e as [x y w h|tx ty].
      + cbn in Hstep. apply redraw_Ok in Hstep as (cs & Hcs & ->). cbn in *.
        split; [done|]. split; [|done]. subst rows.
        apply generate_layout_count in Hcs as ->. lia.
      + cbn in Hstep. rewrite (Hno b Hlen Hrev) in Hstep. cbn in Hstep.
        by injection Hstep as <-. }
  destruct Hinv as (_ & Hlen & Hrev). split; [done|]. by apply Hno.
Qed.

Lemma out_of_range_start_is_inert_witness :
  revealed (laid_out_700 1000) = {[1000]}
  /\ on_touch_down hypot_sqrt (laid_out_700 1000) 350 350
     = Ok (laid_out_700 1000, false).
Proof.
  pose (b0 := set_token_tile
                (mkHexBoard 45 [3; 4; 5; 4; 3] [] None ({[1000]} ∪ ∅)
                   true 1000 0 0 100 100) (Some 1000)).
  assert (Hinit : initialize 45 [3; 4; 5; 4; 3] 1000 true = Ok b0)
    by reflexivity.
  assert (Hstart : 1000 < 0 \/ tile_count [3; 4; 5; 4; 3] <= 1000).
  { right. vm_compute. discriminate. }
  assert (Hreach : reachable hypot_sqrt b0 (laid_out_700 1000)).
  { apply (reach_step _ _ b0 (Resize 0 0 700 700)); [apply reach_start|].
    vm_compute. reflexivity. }
  destruct (out_of_range_start_is_inert hypot_sqrt 45 [3; 4; 5; 4; 3] 1000
              true b0 (laid_out_700 1000) (or_introl Hinit) Hstart Hreach)
    as [Hrev Hno].
  split; [exact Hrev|]. apply (Hno 350%float 350%float).
Defined.

(** ** The picture never goes back *)

(** X11.  Across any event, a tile that [redraw] does not paint black is
    not painted black afterwards, and a logo that is drawn stays drawn:
    what the player has uncovered stays on screen. *)
Theorem uncovered_stays_uncovered (hypot : float -> float -> float)
    (b b' : HexBoard) (e : event) (logos : gset Z) (i : Z) :
  step hypot b e = Ok b' ->
  (fill_is_black b i = false -> fill_is_black b' i = false)
  /\ (logo_is_drawn logos b i = true -> logo_is_drawn logos b' i = true).
Proof.
  intros Hstep.
  pose proof (step_revealed_mono hypot b b' e Hstep) as Hmono.
  pose proof (step_fields hypot b b' e Hstep) as (_ & _ & _ & Hdev & _).
  unfold fill_is_black, logo_is_drawn. rewrite Hdev.
  destruct (developer_mode b); cbn.
  - split; [done|]. by rewrite !orb_true_r.
  - rewrite !orb_false_r. split.
    + intros Hi. apply negb_false_iff, bool_decide_eq_true in Hi.
      apply negb_false_iff, bool_decide_eq_true. by apply Hmono.
    + intros [Hl Hi]%andb_true_iff. apply bool_decide_eq_true in Hi.
      apply andb_true_iff. split; [done|].
      apply bool_decide_eq_true. by apply Hmono.
Qed.

Lemma uncovered_stays_uncovered_witness :
  exists b',
    step hypot_sqrt (set_developer_mode (laid_out_700 9) false)
      (TouchDown 350 350) = Ok b'
    /\ fill_is_black (set_developer_mode (laid_out_700 9) false) 10 = true
    /\ fill_is_black b' 10 = false
    /\ (fill_is_black (set_developer_mode (laid_out_700 9) false) 9 = false ->
        fill_is_black b' 9 = false)
    /\ (logo_is_drawn logo_tiles (set_developer_mode (laid_out_700 9) false) 9
          = true ->
        logo_is_drawn logo_tiles b' 9 = true).
Proof.
  eexists. split; [vm_compute; reflexivity|].
  split; [vm_compute; reflexivity|]. split; [vm_compute; reflexivity|].
  apply (uncovered_stays_uncovered hypot_sqrt
           (set_developer_mode (laid_out_700 9) false) _ (TouchDown 350 350)
           logo_tiles 9).
  vm_compute. reflexivity.
Defined.

(** ** The containment test at its edges *)

Lemma SFabs_shape (X : spec_float) :
  SFabs X = S754_nan
  \/ (exists m e, SFabs X = S754_finite false m e)
  \/ SFabs X = S754_zero false
  \/ SFabs X = S754_infinity false.
Proof. destruct X as [s|s| |s m e]; cbn; eauto 6. Qed.

Lemma point_in_hex_size (px py hx hy size : float) :
  point_in_hex px py hx hy size = true -> (0 <=? size)%float = true.
Proof.
  unfold point_in_hex.
  rewrite FloatAxioms.ltb_spec, !FloatAxioms.leb_spec, mul_spec, sub_spec,
    !abs_spec.
  change (Prim2SF 0) with (S754_zero false).
  change (Prim2SF sqrt3) with (S754_finite false 7800463371553962 (-52)).
  generalize (SFabs (Prim2SF (px - hx))). intros DX.
  destruct (SFabs_shape (Prim2SF (py - hy)))
    as [->|[(m & e & ->)|[->| ->]]];
    destruct (Prim2SF size) as [s|s| |s ms es]; try destruct s;
    cbn; try done;
    destruct DX as [sd|sd| |sd md ed]; try destruct sd; cbn; done.
Qed.

(** X12.  [point_in_hex] accepts nothing unless the size is at least zero:
    with a negative or NaN hex size every test fails, so no touch is ever
    handled and the board never changes. *)
Theorem negative_size_hits_nothing (hypot : float -> float -> float)
    (b : HexBoard) :
  (0 <=? hex_size b)%float = false ->
  (forall px py hx hy : float, point_in_hex px py hx hy (hex_size b) = false)
  /\ forall tx ty : float, on_touch_down hypot b tx ty = Ok (b, false).
Proof.
  intros Hs.
  assert (Hnone : forall px py hx hy : float,
            point_in_hex px py hx hy (hex_size b) = false).
  { intros px py hx hy.
    destruct (point_in_hex px py hx hy (hex_size b)) eqn:Hp; [|done].
    apply point_in_hex_size in Hp. congruence. }
  split; [done|]. intros tx ty. rewrite hit_selects.
  unfold touched_tile. rewrite touched_loop_none; [done|].
  intros c _. apply Hnone.
Qed.

Lemma negative_size_hits_nothing_witness :
  (forall px py hx hy : float,
     point_in_hex px py hx hy
       (hex_size (mkHexBoard (-45) [3; 4; 5; 4; 3] centers_700 (Some 7)
                    {[7]} true 7 0 0 700 700)) = false)
  /\ on_touch_down hypot_sqrt
       (mkHexBoard (-45) [3; 4; 5; 4; 3] centers_700 (Some 7) {[7]} true 7
          0 0 700 700) 350 350
     = Ok (mkHexBoard (-45) [3; 4; 5; 4; 3] centers_700 (Some 7) {[7]} true 7
             0 0 700 700, false).
Proof.
  destruct (negative_size_hits_nothing hypot_sqrt
              (mkHexBoard (-45) [3; 4; 5; 4; 3] centers_700 (Some 7) {[7]}
                 true 7 0 0 700 700) eq_refl) as [Hnone Hno].
  split; [exact Hnone|]. apply (Hno 350%float 350%float).
Defined.

(** X13.  The test looks at the two offsets only, so point and centre can
    change places: one tile's region reaches another tile's centre exactly
    when the other's region reaches the first one's centre. *)
Theorem point_in_hex_swap (px py hx hy size : float) :
  point_in_hex px py hx hy size = point_in_hex hx hy px py size.
Proof.
  unfold point_in_hex.
  by rewrite (abs_sub_sym px hx), (abs_sub_sym py hy).
Qed.

(** ** Every centre has its row and column *)

Lemma tile_count_take_S (rows : list Z) (r : nat) (count : Z) :
  rows !! r = Some count ->
  tile_count (take (S r) rows) = tile_count (take r rows) + Z.max 0 count.
Proof.
  revert r. induction rows as [|c0 rows IH]; intros r Hr.
  { rewrite lookup_nil in Hr. discriminate. }
  destruct r as [|r]; cbn in Hr.
  - injection Hr as ->. cbn [take]. rewrite take_0, !tile_count_cons.
    unfold tile_count, py_sum. cbn. lia.
  - change (take (S (S r)) (c0 :: rows)) with (c0 :: take (S r) rows).
    change (take (S r) (c0 :: rows)) with (c0 :: take r rows).
    rewrite !tile_count_cons, (IH r Hr). lia.
Qed.

Lemma tile_count_take_mono (rows : list Z) (r r' : nat) :
  (r <= r')%nat -> tile_count (take r rows) <= tile_count (take r' rows).
Proof.
  induction 1 as [|r' _ IH]; [lia|].
  destruct (rows !! r') as [count|] eqn:Hr'.
  - rewrite (tile_count_take_S rows r' count Hr'). lia.
  - apply lookup_ge_None in Hr'.
    rewrite (take_ge rows (S r')) by lia.
    by rewrite (take_ge rows r') in IH by lia.
Qed.

Lemma row_column_unique (rows : list Z) (r r' : nat) (count count' c c' : Z) :
  rows !! r = Some count -> 0 <= c < count ->
  rows !! r' = Some count' -> 0 <= c' < count' ->
  tile_count (take r rows) + c = tile_count (take r' rows) + c' ->
  r = r' /\ c = c'.
Proof.
  intros Hr Hc Hr' Hc' Heq.
  pose proof (tile_count_take_S rows r count Hr) as HS.
  pose proof (tile_count_take_S rows r' count' Hr') as HS'.
  destruct (Nat.lt_trichotomy r r') as [Hlt|[->|Hgt]].
  - pose proof (tile_count_take_mono rows (S r) r' Hlt). lia.
  - split; [done | lia].
  - pose proof (tile_count_take_mono rows (S r') r Hgt). lia.
Qed.

Lemma layout_rows_inv (w h cx sy : float) (rows : list Z) :
  forall (r0 : Z) (cs : list point) (i : nat) (p : point),
  layout_rows w h cx sy r0 rows = Ok cs ->
  cs !! i = Some p ->
  exists (r : nat) (count c : Z),
    rows !! r = Some count /\ 0 <= c < count
    /\ Z.of_nat i = tile_count (take r rows) + c
    /\ p = ((cx + - (Z2F (count - 1) * w) / 2 + Z2F c * w)%float,
            (sy - Z2F (r0 + Z.of_nat r) * h)%float).
Proof.
  induction rows as [|count0 rest IH]; intros r0 cs i p H Hi; cbn in H.
  { injection H as <-. rewrite lookup_nil in Hi. discriminate. }
  apply bind_Ok in H as (row & Hrow & H).
  apply bind_Ok in H as (below & Hbelow & H). injection H as <-.
  pose proof (row_centers_length _ _ _ _ _ _ _ Hrow) as Hlen.
  apply lookup_app_Some in Hi as [Hi|[Hge Hi]].
  - pose proof (lookup_lt_Some _ _ _ Hi) as Hlt.
    exists 0%nat, count0, (Z.of_nat i). split; [done|]. split; [lia|].
    split; [rewrite take_0; unfold tile_count, py_sum; cbn; lia|].
    assert (Hc : 0 <= Z.of_nat i < count0) by lia.
    pose proof (row_centers_lookup w h cx sy r0 count0 row (Z.of_nat i)
                  Hrow Hc) as Hlook.
    rewrite Nat2Z.id, Hi in Hlook. injection Hlook as ->.
    change (Z.of_nat 0) with 0. by rewrite Z.add_0_r.
  - destruct (IH (r0 + 1) below (i - length row)%nat p Hbelow Hi)
      as (r & count & c & Hr & Hc & Hidx & ->).
    exists (S r), count, c. split; [done|]. split; [done|]. split.
    + change (take (S r) (count0 :: rest)) with (count0 :: take r rest).
      rewrite tile_count_cons. clear - Hge Hlen Hidx. lia.
    + do 4 f_equal. lia.
Qed.

(** X14.  A computed layout holds nothing but the tiles of the pattern:
    every centre in it is the centre of some column [c] of some row [r],
    at the list position [tiles of the rows before r + c], and of no other
    row and column. *)
Theorem generate_layout_complete (hs : float) (rows : list Z)
    (x y w h : float) (cs : list point) (i : nat) (p : point) :
  generate_layout hs rows x y w h = Ok cs ->
  cs !! i = Some p ->
  exists (r : nat) (count c : Z),
    (rows !! r = Some count /\ 0 <= c < count
     /\ Z.of_nat i = tile_count (take r rows) + c
     /\ p = center_at hs x y w h (length rows) r count c)
    /\ forall (r' : nat) (count' c' : Z),
         rows !! r' = Some count' -> 0 <= c' < count' ->
         Z.of_nat i = tile_count (take r' rows) + c' ->
         r' = r /\ c' = c.
Proof.
  unfold generate_layout. intros H Hi.
  apply bind_Ok in H as (n1 & Hn1 & H). apply int_to_float_Ok in Hn1 as ->.
  destruct (layout_rows_inv _ _ _ _ rows 0 cs i p H Hi)
    as (r & count & c & Hr & Hc & Hidx & ->).
  exists r, count, c. split.
  - split; [done|]. split; [done|]. split; [done|].
    unfold center_at. by rewrite Z.add_0_l.
  - intros r' count' c' Hr' Hc' Hidx'.
    apply (row_column_unique rows r' r count' count c' c Hr' Hc' Hr Hc). lia.
Qed.

Lemma generate_layout_complete_witness :
  exists (r : nat) (count c : Z),
    ([3; 4; 5; 4; 3] !! r = Some count /\ 0 <= c < count
     /\ Z.of_nat 9 = tile_count (take r [3; 4; 5; 4; 3]) + c
     /\ (350%float, 350%float) = center_at 45 0 0 700 700 5 r count c)
    /\ forall (r' : nat) (count' c' : Z),
         [3; 4; 5; 4; 3] !! r' = Some count' -> 0 <= c' < count' ->
         Z.of_nat 9 = tile_count (take r' [3; 4; 5; 4; 3]) + c' ->
         r' = r /\ c' = c.
Proof.
  apply (generate_layout_complete 45 [3; 4; 5; 4; 3] 0 0 700 700
           centers_700 9 (350%float, 350%float)).
  - vm_compute. reflexivity.
  - reflexivity.
Defined.

(** ** When the layout pass fails *)

Lemma int_to_float_Ok_bound (z : Z) (f : float) :
  int_to_float z = Ok f -> Z.abs z < float_int_bound.
Proof.
  unfold int_to_float.
  destruct (Z.ltb_spec (Z.abs z) float_int_bound); [done | discriminate].
Qed.

Lemma int_to_float_Raise (z : Z) (e : exn) :
  int_to_float z = Raise e -> e = OverflowError.
Proof.
  unfold int_to_float. destruct (Z.abs z <? float_int_bound); congruence.
Qed.

Lemma bind_Raise {A B} (m : result A) (f : A -> result B) (e : exn) :
  m ≫= f = Raise e -> m = Raise e \/ exists a, m = Ok a /\ f a = Raise e.
Proof. destruct m as [a|e']; cbn; [eauto | intros [= ->]; by left]. Qed.

Lemma mapM_result_Raise {A B} (f : A -> result B) (l : list A) (e : exn) :
  mapM f l = Raise e -> exists a, a ∈ l /\ f a = Raise e.
Proof.
  induction l as [|a l IH]; cbn; [discriminate|]. intros H.
  apply bind_Raise in H as [H|(y & _ & H)].
  { exists a. split; [apply list_elem_of_here | done]. }
  apply bind_Raise in H as [H|(k & _ & H)]; [|discriminate].
  destruct (IH H) as (a' & Ha' & Hf). exists a'.
  split; [by apply list_elem_of_further | done].
Qed.

Lemma row_centers_Raise (w h cx sy : float) (r count : Z) (e : exn) :
  row_centers w h cx sy r count = Raise e -> e = OverflowError.
Proof.
  unfold row_centers. intros H.
  apply bind_Raise in H as [H|(c1 & _ & H)]; [by eapply int_to_float_Raise|].
  apply bind_Raise in H as [H|(fr & _ & H)]; [by eapply int_to_float_Raise|].
  apply mapM_result_Raise in H as (col & _ & H).
  apply bind_Raise in H as [H|(fc & _ & H)]; [|discriminate].
  by eapply int_to_float_Raise.
Qed.

Lemma layout_rows_Raise (w h cx sy : float) (rows : list Z) (e : exn) :
  forall r0, layout_rows w h cx sy r0 rows = Raise e -> e = OverflowError.
Proof.
  induction rows as [|count rest IH]; intros r0; cbn; [discriminate|].
  intros H. apply bind_Raise in H as [H|(row & _ & H)];
    [by eapply row_centers_Raise|].
  apply bind_Raise in H as [H|(below & _ & H)]; [by eapply IH | discriminate].
Qed.

Lemma row_centers_total_any (w h cx sy : float) (r count : Z) :
  0 <= r < float_int_bound -> Z.abs (count - 1) < float_int_bound ->
  exists row, row_centers w h cx sy r count = Ok row.
Proof.
  intros Hr Hcount. unfold row_centers.
  rewrite (int_to_float_small (count - 1)) by done. cbn.
  rewrite (int_to_float_small r) by lia. cbn.
  eexists. apply mapM_result_total with
    (g := fun col => ((cx + - (Z2F (count - 1) * w) / 2 + Z2F col * w)%float,
                      (sy - Z2F r * h)%float)).
  intros col Hcol. unfold py_range in Hcol.
  apply list_elem_of_fmap in Hcol as (i & -> & Hi).
  apply elem_of_seq in Hi.
  rewrite int_to_float_small by lia. done.
Qed.

Lemma layout_rows_total_any (w h cx sy : float) (rows : list Z) :
  forall r0 : Z,
  0 <= r0 -> r0 + Z.of_nat (length rows) <= float_int_bound ->
  Forall (fun c => Z.abs (c - 1) < float_int_bound) rows ->
  exists cs, layout_rows w h cx sy r0 rows = Ok cs.
Proof.
  induction rows as [|count0 rest IH]; intros r0 Hr0 Hlen Hrows; cbn.
  { by eexists. }
  apply Forall_cons in Hrows as [Hc0 Hrest]. cbn in Hlen.
  destruct (row_centers_total_any w h cx sy r0 count0) as [row ->];
    [lia | done|].
  destruct (IH (r0 + 1)) as [below ->]; [lia | lia | done|]. cbn. by eexists.
Qed.

Lemma layout_rows_Ok_bound (w h cx sy : float) (rows : list Z) :
  forall (r0 : Z) (cs : list point),
  layout_rows w h cx sy r0 rows = Ok cs ->
  Forall (fun c => Z.abs (c - 1) < float_int_bound) rows.
Proof.
  induction rows as [|count rest IH]; intros r0 cs H; cbn in H; [done|].
  apply bind_Ok in H as (row & Hrow & H).
  apply bind_Ok in H as (below & Hbelow & _).
  apply List.Forall_cons; [|by eapply IH].
  unfold row_centers in Hrow. apply bind_Ok in Hrow as (c1 & Hc1 & _).
  by eapply int_to_float_Ok_bound.
Qed.

(** X15.  The layout pass fails in one way only, the [OverflowError] of an
    integer too large for a float, and it succeeds exactly when the number
    of rows and every [count - 1] convert. *)
Theorem generate_layout_overflow (hs : float) (rows : list Z)
    (x y w h : float) :
  ((exists cs, generate_layout hs rows x y w h = Ok cs)
   <-> layout_convertible rows)
  /\ forall e, generate_layout hs rows x y w h = Raise e -> e = OverflowError.
Proof.
  pose proof float_int_bound_big as Hbig. unfold generate_layout. split.
  - split.
    + intros [cs H]. apply bind_Ok in H as (n1 & Hn1 & H).
      apply int_to_float_Ok_bound in Hn1.
      split; [by eapply layout_rows_Ok_bound | lia].
    + intros [Hrows Hlen].
      rewrite (int_to_float_small (Z.of_nat (length rows) - 1)) by lia.
      cbn. apply layout_rows_total_any; [lia | lia | done].
  - intros e H. apply bind_Raise in H as [H|(n1 & _ & H)].
    + by eapply int_to_float_Raise.
    + by eapply layout_rows_Raise.
Qed.

(** ** Revealed tiles hang together *)

Lemma get_neighbors_same_layout (hypot : float -> float -> float)
    (b b0 : HexBoard) (i : Z) :
  tile_centers b = tile_centers b0 -> hex_size b = hex_size b0 ->
  get_neighbors hypot b i = get_neighbors hypot b0 i.
Proof. intros Hc Hs. unfold get_neighbors. by rewrite Hc, Hs. Qed.

Lemma touch_keeps_layout (hypot : float -> float -> float) (b b' : HexBoard)
    (tx ty : float) (handled : bool) :
  laid_out b -> on_touch_down hypot b tx ty = Ok (b', handled) ->
  laid_out b' /\ tile_centers b' = tile_centers b
  /\ hex_size b' = hex_size b.
Proof.
  unfold laid_out. intros Hlaid H.
  apply on_touch_down_Ok in H as [[_ ->]|(_ & idx & _ & Hsel)]; [done|].
  unfold select_tile in Hsel. apply bind_Ok in Hsel as (ns & _ & Hsel).
  apply bind_Ok in Hsel as (b3 & Hb3 & Hsel). injection Hsel as <-.
  apply redraw_Ok in Hb3 as (cs & Hcs & ->). cbn in *.
  rewrite Hlaid in Hcs. injection Hcs as <-. done.
Qed.

(** X16.  While the window keeps its size, fog lifts next to revealed
    tiles only: on a board reached by touches from a laid-out board, every
    revealed tile either was revealed at the start or is, by
    [get_neighbors], a neighbour of a revealed tile; and the centres are
    still those of the start. *)
Theorem revealed_tiles_are_connected (hypot : float -> float -> float)
    (b0 b : HexBoard) :
  laid_out b0 ->
  touched_from hypot b0 b ->
  tile_centers b = tile_centers b0
  /\ forall t, t ∈ revealed b ->
       t ∈ revealed b0
       \/ exists s ns,
            s ∈ revealed b /\ get_neighbors hypot b0 s = Ok ns /\ t ∈ ns.
Proof.
  intros Hlaid0 Hreach.
  assert (Hinv : laid_out b /\ tile_centers b = tile_centers b0
                 /\ hex_size b = hex_size b0
                 /\ forall t, t ∈ revealed b ->
                      t ∈ revealed b0
                      \/ exists s ns, s ∈ revealed b
                           /\ get_neighbors hypot b0 s = Ok ns /\ t ∈ ns).
  { induction Hreach as [|b tx ty b' handled _ IH Htouch].
    - split; [done|]. split; [done|]. split; [done|]. intros t Ht. by left.
    - destruct IH as (Hlaid & Hcs & Hhs & Hconn).
      destruct (touch_keeps_layout hypot b b' tx ty handled Hlaid Htouch)
        as (Hlaid' & Hcs' & Hhs').
      split; [done|]. split; [congruence|]. split; [congruence|].
      pose proof (on_touch_down_Ok hypot b b' tx ty handled Htouch)
        as [[_ ->]|(_ & idx & Hidx & Hsel)]; [done|].
      apply touched_tile_Some in Hidx as (_ & Hrev & _).
      unfold select_tile in Hsel. apply bind_Ok in Hsel as (ns & Hns & Hsel).
      apply bind_Ok in Hsel as (b3 & Hb3 & Hsel). injection Hsel as <-.
      apply redraw_Ok in Hb3 as (cs & _ & ->). cbn.
      rewrite reveal_fold. cbn.
      rewrite get_neighbors_set_token_tile in Hns.
      rewrite (get_neighbors_same_layout hypot b b0 idx Hcs Hhs) in Hns.
      intros t [Ht|Ht]%elem_of_union.
      + destruct (Hconn t Ht) as [?|(s & ns' & Hs & Hns' & Hin)]; [by left|].
        right. exists s, ns'. split; [by apply elem_of_union_l | done].
      + right. exists idx, ns. split; [by apply elem_of_union_l|].
        split; [done|]. by apply elem_of_list_to_set in Ht. }
  destruct Hinv as (_ & Hcs & _ & Hconn). done.
Qed.

Lemma revealed_tiles_are_connected_witness :
  exists b,
    on_touch_down hypot_sqrt (laid_out_700 7) 200 350 = Ok (b, true)
    /\ tile_centers b = tile_centers (laid_out_700 7)
    /\ forall t, t ∈ revealed b ->
         t ∈ revealed (laid_out_700 7)
         \/ exists s ns,
              s ∈ revealed b
              /\ get_neighbors hypot_sqrt (laid_out_700 7) s = Ok ns
              /\ t ∈ ns.
Proof.
  eexists. split; [vm_compute; reflexivity|].
  apply (revealed_tiles_are_connected hypot_sqrt (laid_out_700 7)).
  - vm_compute. reflexivity.
  - apply (touched_step hypot_sqrt (laid_out_700 7) (laid_out_700 7)
             200 350 _ true); [apply touched_start|].
    vm_compute. reflexivity.
Defined.

(** ** Centres and geometry stay in step *)

(** X17.  The centres used for hit testing are never stale: on every state
    the host can reach from a constructed board, either no layout has been
    computed yet (no centres, so no touch can be handled) or the centres
    are exactly the layout of the board's current pattern and geometry. *)
Theorem centers_never_stale (hypot : float -> float -> float)
    (hs : float) (rows : list Z) (start : Z) (dev : bool)
    (b0 b : HexBoard) :
  initialize hs rows start dev = Ok b0
  \/ HexBoard_init hs rows start dev = Ok b0 ->
  reachable hypot b0 b ->
  tile_centers b = [] \/ laid_out b.
Proof.
  intros Hinit Hreach. induction Hreach as [|b e b' _ IH Hstep].
  - left. by destruct Hinit as [Hinit|Hinit]; injection Hinit as <-.
  - destruct e as [x y w h|tx ty]; cbn in Hstep.
    + right. apply redraw_Ok in Hstep as (cs & Hcs & ->). exact Hcs.
    + apply bind_Ok in Hstep as ([b1 handled] & Htouch & Hb').
      injection Hb' as <-. cbn. destruct IH as [Hnil|Hlaid].
      * left. unfold on_touch_down in Htouch. rewrite Hnil in Htouch.
        cbn in Htouch. by injection Htouch as <- _.
      * right.
        by destruct (touch_keeps_layout hypot b b1 tx ty handled Hlaid Htouch).
Qed.

Lemma centers_never_stale_witness :
  tile_centers (laid_out_700 7) = [] \/ laid_out (laid_out_700 7).
Proof.
  pose (b0 := set_token_tile
                (mkHexBoard 45 [3; 4; 5; 4; 3] [] None ({[7]} ∪ ∅)
                   true 7 0 0 100 100) (Some 7)).
  assert (Hinit : initialize 45 [3; 4; 5; 4; 3] 7 true = Ok b0)
    by reflexivity.
  assert (Hreach : reachable hypot_sqrt b0 (laid_out_700 7)).
  { apply (reach_step _ _ b0 (Resize 0 0 700 700)); [apply reach_start|].
    vm_compute. reflexivity. }
  exact (centers_never_stale hypot_sqrt 45 [3; 4; 5; 4; 3] 7 true b0
           (laid_out_700 7) (or_introl Hinit) Hreach).
Defined.

(** ** Touching the same point again *)

Lemma touched_tile_at_most (b : HexBoard) (tx ty : float) (t : Z) :
  contains b tx ty t -> t ∈ revealed b ->
  exists t', touched_tile b tx ty = Some t' /\ 0 <= t' <= t.
Proof.
  intros (Ht & c & Hc & Hhit) Hrev. unfold touched_tile.
  pose proof (touched_loop_spec b tx ty (tile_centers b) 0) as H.
  assert (Hid : 0 + Z.of_nat (Z.to_nat t) = t) by lia.
  destruct (touched_loop b tx ty 0 (tile_centers b)) as [t'|].
  - destruct H as (i & c' & Hi & -> & Hc' & Hr & Hfirst).
    exists (0 + Z.of_nat i). split; [done|]. split; [lia|].
    destruct (decide (Z.to_nat t < i)%nat) as [Hlt|Hge]; [|lia].
    pose proof (Hfirst (Z.to_nat t) c Hlt Hc Hhit) as Hn.
    rewrite Hid in Hn. done.
  - pose proof (H (Z.to_nat t) c Hc Hhit) as Hn. rewrite Hid in Hn. done.
Qed.

(** X18.  On a laid-out board a handled touch can be repeated: the same
    point is handled again, by the same tile or, when the first touch
    revealed an earlier tile that also contains the point, by a tile of
    smaller index; the token never moves to a later tile. *)
Theorem touch_again (hypot : float -> float -> float) (b b' : HexBoard)
    (tx ty : float) :
  laid_out b ->
  on_touch_down hypot b tx ty = Ok (b', true) ->
  exists b'' t t',
    token_tile b' = Some t
    /\ on_touch_down hypot b' tx ty = Ok (b'', true)
    /\ token_tile b'' = Some t' /\ 0 <= t' <= t.
Proof.
  intros Hlaid Htouch.
  destruct (touch_keeps_layout hypot b b' tx ty true Hlaid Htouch)
    as (Hlaid' & Hcs & Hhs).
  pose proof (on_touch_down_Ok hypot b b' tx ty true Htouch)
    as [[? _]|(_ & idx & Hidx & Hsel)]; [discriminate|].
  apply touched_tile_Some in Hidx as (Hin & Hrev & _).
  apply select_tile_Ok in Hsel as (_ & Htok & _ & _ & ns & Hns & _).
  assert (Hin' : contains b' tx ty idx).
  { destruct Hin as (H0 & c & Hc & Hhit). split; [done|]. exists c.
    by rewrite Hcs, Hhs. }
  assert (Hrev' : idx ∈ revealed b').
  { rewrite Hns. by apply elem_of_union_l. }
  destruct (touched_tile_at_most b' tx ty idx Hin' Hrev')
    as (t' & Ht' & Hle).
  destruct (touch_returns hypot b' tx ty (tile_centers b') Hlaid')
    as (b'' & handled & Hagain).
  pose proof (on_touch_down_Ok hypot b' b'' tx ty handled Hagain)
    as [[-> _]|(-> & idx' & Hidx' & Hsel')].
  { rewrite hit_selects, Ht' in Hagain.
    apply select_tile_Ok in Hagain as [? _]. discriminate. }
  rewrite Ht' in Hidx'. injection Hidx' as <-.
  apply select_tile_Ok in Hsel' as (_ & Htok' & _).
  exists b'', idx, t'. done.
Qed.

(** On the board with start tile 9, a touch 5 units left of tile 9's centre
    is handled by tile 9 and reveals tile 8; the same touch again is
    handled by tile 8. *)
Lemma touch_again_witness :
  exists b' b'',
    on_touch_down hypot_sqrt (laid_out_700 9) 345 350 = Ok (b', true)
    /\ token_tile b' = Some 9
    /\ on_touch_down hypot_sqrt b' 345 350 = Ok (b'', true)
    /\ token_tile b'' = Some 8
    /\ exists c'' t t',
         token_tile b' = Some t
         /\ on_touch_down hypot_sqrt b' 345 350 = Ok (c'', true)
         /\ token_tile c'' = Some t' /\ 0 <= t' <= t.
Proof.
  eexists. eexists. split; [vm_compute; reflexivity|].
  split; [vm_compute; reflexivity|]. split; [vm_compute; reflexivity|].
  split; [vm_compute; reflexivity|].
  apply (touch_again hypot_sqrt (laid_out_700 9) _ 345 350).
  - vm_compute. reflexivity.
  - vm_compute. reflexivity.
Defined.
